(** * The Mana server: scripting bridge, item manager and account client

    A shallow embedding of three translation units of the server,

      - [src/scripting/lua.cpp]               (module [LuaScripting]),
      - [src/game-server/itemmanager.cpp]     (module [ItemManager]),
      - [src/account-server/accountclient.cpp] (module [AccountClient]),

    together with the properties of them that the system description
    states.  Native pointers are addresses into explicit stores of live
    objects; code that can abort, fault or fail to return runs in the
    [Outcome] monad below. *)

From stdpp Require Import gmap strings list fin_maps pretty.
From Stdlib Require Import ZArith Lia Ascii String.

Local Open Scope Z_scope.

(** ** Outcomes of native code *)

(** What a call of native code can come to.  Only [Done] hands a value back
    to the caller. *)
Inductive Outcome (A : Type) : Type :=
  | Done (a : A)      (* normal return *)
  | AssertFail        (* an [assert] did not hold: the process aborts *)
  | Panic             (* interpreter error raised outside a protected call *)
  | Undefined         (* access through an address that holds no live object *)
  | NoReturn.         (* the interpreter never hands control back *)

Arguments Done {A} a.
Arguments AssertFail {A}.
Arguments Panic {A}.
Arguments Undefined {A}.
Arguments NoReturn {A}.

Definition obind {A B : Type} (m : Outcome A) (k : A -> Outcome B) : Outcome B :=
  match m with
  | Done a => k a
  | AssertFail => AssertFail
  | Panic => Panic
  | Undefined => Undefined
  | NoReturn => NoReturn
  end.

#[global] Instance Outcome_ret : MRet Outcome := @Done.
#[global] Instance Outcome_bind : MBind Outcome := fun A B k m => obind m k.

Definition is_Done {A : Type} (m : Outcome A) : Prop := exists a, m = Done a.

Lemma obind_Done {A B : Type} (m : Outcome A) (k : A -> Outcome B) (b : B) :
  obind m k = Done b -> exists a, m = Done a /\ k a = Done b.
Proof. destruct m; simpl; try discriminate. eauto. Qed.

(** [assert(c)] of <cassert>. *)
Definition assert (c : bool) : Outcome unit :=
  if c then Done tt else AssertFail.

(** Addresses of native objects.  A null pointer is [None] wherever a
    pointer is a value of its own. *)
Abbreviation ptr := Z (only parsing).

(** * account-server/accountclient.cpp *)

Module AccountClient.

(** States of a client connection; the constructor uses [CLIENT_LOGIN]. *)
Inductive AccountClientStatus : Set :=
  | CLIENT_LOGIN
  | CLIENT_CONNECTED
  | CLIENT_QUEUED.

(** The object: the peer handed to [NetComputer], the status and the
    [Account *] it holds. *)
Record AccountClient : Type := mkAccountClient {
  peer : ptr;
  status : AccountClientStatus;
  mAccount : option ptr
}.

(** The free store as far as this file touches it: the addresses at which
    an [Account] is alive. *)
Abbreviation Heap := (gset Z) (only parsing).

(** [delete p]: nothing for a null pointer, releases a live object, and is
    undefined on an address that holds none. *)
Definition delete (p : option ptr) (h : Heap) : Outcome Heap :=
  match p with
  | None => Done h
  | Some a => if decide (a ∈ h) then Done (h ∖ {[a]}) else Undefined
  end.


(** [void AccountClient::unsetAccount()] *)
Definition unsetAccount (c : AccountClient) (h : Heap)
  : Outcome (AccountClient * Heap) :=
  h' ← delete (mAccount c) h;
  Done ({| peer := peer c; status := status c; mAccount := None |}, h').

(** [void AccountClient::setAccount(Account *acc)] *)
Definition setAccount (acc : option ptr) (c : AccountClient) (h : Heap)
  : Outcome (AccountClient * Heap) :=
  '(c', h') ← unsetAccount c h;
  Done ({| peer := peer c'; status := status c'; mAccount := acc |}, h').

(** [AccountClient::~AccountClient()]: what is left of the store. *)
Definition AccountClient_delete (c : AccountClient) (h : Heap) : Outcome Heap :=
  '(_, h') ← unsetAccount c h;
  Done h'.

(** The calls a user of the class can make between construction and
    destruction. *)
Inductive call : Type :=
  | SetAccount (acc : option ptr)
  | UnsetAccount.

Definition do_call (k : call) (c : AccountClient) (h : Heap) :=
  match k with
  | SetAccount acc => setAccount acc c h
  | UnsetAccount => unsetAccount c h
  end.

Fixpoint run (ks : list call) (c : AccountClient) (h : Heap)
  : Outcome (AccountClient * Heap) :=
  match ks with
  | [] => Done (c, h)
  | k :: ks' => '(c', h') ← do_call k c h; run ks' c' h'
  end.

(** The accounts handed to the client by a sequence of calls. *)
Fixpoint given (ks : list call) : list ptr :=
  match ks with
  | [] => []
  | SetAccount (Some a) :: ks' => a :: given ks'
  | _ :: ks' => given ks'
  end.

(** The accounts the client holds: none or one. *)
Definition held (c : AccountClient) : gset Z :=
  match mAccount c with
  | None => ∅
  | Some a => {[a]}
  end.

(** The held pointer, if any, refers to a live account. *)
Definition holds_live (c : AccountClient) (h : Heap) : Prop :=
  held c ⊆ h.


Lemma unsetAccount_live c h :
  holds_live c h ->
  unsetAccount c h =
    Done ({| peer := peer c; status := status c; mAccount := None |}, h ∖ held c).
Proof.
  unfold holds_live, held, unsetAccount, delete.
  destruct (mAccount c) as [a|]; simpl; intros Hl.
  - destruct (decide (a ∈ h)) as [_|Hn]; [done|]. set_solver.
  - f_equal. f_equal. set_solver.
Qed.

Lemma unsetAccount_inv c h c' h' :
  unsetAccount c h = Done (c', h') ->
  c' = {| peer := peer c; status := status c; mAccount := None |} /\
  h' = h ∖ held c /\ holds_live c h.
Proof.
  unfold unsetAccount, delete, holds_live, held.
  destruct (mAccount c) as [a|]; simpl.
  - destruct (decide (a ∈ h)); simpl; [|discriminate].
    intros [= <- <-]. split_and!; [done|done|set_solver].
  - intros [= <- <-]. split_and!; [done|set_solver|set_solver].
Qed.

Lemma setAccount_live acc c h :
  holds_live c h ->
  setAccount acc c h =
    Done ({| peer := peer c; status := status c; mAccount := acc |}, h ∖ held c).
Proof.
  intros Hl. unfold setAccount. by rewrite (unsetAccount_live _ _ Hl).
Qed.

(** The pointer a call leaves in the client, and the account it hands
    over. *)
Definition stored (k : call) : option ptr :=
  match k with
  | SetAccount acc => acc
  | UnsetAccount => None
  end.

Definition after (k : call) (c : AccountClient) : AccountClient :=
  {| peer := peer c; status := status c; mAccount := stored k |}.

Lemma given_cons k ks : given (k :: ks) = option_list (stored k) ++ given ks.
Proof. by destruct k as [[a|]|]. Qed.

Lemma held_after k c : held (after k c) = list_to_set (option_list (stored k)).
Proof. unfold held, after. simpl. destruct (stored k); set_solver. Qed.



Lemma do_call_inv k c h c' h' :
  do_call k c h = Done (c', h') ->
  c' = after k c /\ h' = h ∖ held c /\ holds_live c h.
Proof.
  destruct k as [acc|]; simpl.
  - unfold setAccount.
    destruct (unsetAccount c h) as [[c1 h1]| | | |] eqn:Hu; simpl; try discriminate.
    apply unsetAccount_inv in Hu as (-> & -> & Hl). by intros [= <- <-].
  - intros Hu. apply unsetAccount_inv in Hu as (-> & -> & Hl). done.
Qed.





(** Handing the client the account it already holds is outside the
    hypotheses above: the account is released and its address kept, and the
    destructor then deletes it a second time. *)
Example setAccount_same_account :
  let c := {| peer := 0; status := CLIENT_CONNECTED; mAccount := Some 7 |} in
  setAccount (Some 7) c {[7]} = Done (c, ∅) /\
  AccountClient_delete c ∅ = Undefined.
Proof. split; vm_compute; reflexivity. Qed.

(** ** What a run touches *)

(** X1.  Whatever calls are made on a client, as long as they return: the
    peer and the status stay as they were, the client ends up holding
    nothing but an account it held or was handed, no account appears in the
    store, and an account that the client neither held at the start nor was
    handed is alive afterwards exactly when it was alive before. *)
Theorem run_touches_only_own_accounts
    (ks : list call) (c : AccountClient) (h : Heap) (c' : AccountClient) (h' : Heap) :
  run ks c h = Done (c', h') ->
  peer c' = peer c /\
  status c' = status c /\
  held c' ⊆ held c ∪ list_to_set (given ks) /\
  h' ⊆ h /\
  (forall x, x ∉ held c -> x ∉ given ks -> (x ∈ h' <-> x ∈ h)).
Proof.
  revert c h. induction ks as [|k ks IH]; intros c h Hr.
  - simpl in Hr. injection Hr as <- <-. split_and!; [done|done|set_solver|done|done].
  - cbn [run] in Hr.
    destruct (do_call k c h) as [[c1 h1]| | | |] eqn:Hk; simpl in Hr; try discriminate.
    apply do_call_inv in Hk as (-> & -> & Hl).
    destruct (IH _ _ Hr) as (Hp & Hs & Hheld & Hsub & Hframe).
    rewrite held_after in Hheld. rewrite given_cons.
    split_and!; [done|done|set_solver|set_solver|].
    intros x Hx Hg. rewrite Hframe.
    + set_solver.
    + rewrite held_after. set_solver.
    + set_solver.
Qed.

Lemma run_touches_only_own_accounts_witness :
  let c := {| peer := 3; status := CLIENT_QUEUED; mAccount := Some 7 |} in
  let ks := [SetAccount (Some 1); UnsetAccount; SetAccount (Some 2)] in
  let c' := {| peer := 3; status := CLIENT_QUEUED; mAccount := Some 2 |} in
  run ks c {[1; 2; 7; 9]} = Done (c', {[2; 9]}) /\
  peer c' = peer c /\
  status c' = status c /\
  held c' ⊆ held c ∪ list_to_set (given ks) /\
  ({[2; 9]} : gset Z) ⊆ {[1; 2; 7; 9]} /\
  (forall x, x ∉ held c -> x ∉ given ks ->
     (x ∈ ({[2; 9]} : gset Z) <-> x ∈ ({[1; 2; 7; 9]} : gset Z))).
Proof.
  intros c ks c'.
  assert (H : run ks c {[1; 2; 7; 9]} = Done (c', {[2; 9]}))
    by (vm_compute; reflexivity).
  split; [exact H|].
  exact (run_touches_only_own_accounts ks c {[1; 2; 7; 9]} c' {[2; 9]} H).
Defined.

(** X2.  setAccount() with the account the client already holds deletes
    that account and then stores its address again: the client is left with
    a pointer to a released account, and the next unsetAccount(), or the
    destructor, deletes it a second time. *)
Theorem setAccount_held_account_dangles
    (a : ptr) (c : AccountClient) (h : Heap) :
  mAccount c = Some a ->
  a ∈ h ->
  exists c',
    setAccount (Some a) c h = Done (c', h ∖ {[a]}) /\
    mAccount c' = Some a /\
    a ∉ h ∖ {[a]} /\
    unsetAccount c' (h ∖ {[a]}) = Undefined /\
    AccountClient_delete c' (h ∖ {[a]}) = Undefined.
Proof.
  intros Hm Ha.
  assert (Hl : holds_live c h) by (unfold holds_live, held; rewrite Hm; set_solver).
  assert (Hh : held c = {[a]}) by (unfold held; by rewrite Hm).
  eexists. rewrite (setAccount_live _ _ _ Hl), Hh.
  split; [reflexivity|]. split; [reflexivity|]. split; [set_solver|].
  assert (Hu : unsetAccount
                 {| peer := peer c; status := status c; mAccount := Some a |}
                 (h ∖ {[a]}) = Undefined).
  { unfold unsetAccount, delete. simpl.
    destruct (decide (a ∈ h ∖ {[a]})) as [Hin|_]; [set_solver|done]. }
  split; [exact Hu|]. unfold AccountClient_delete. by rewrite Hu.
Qed.

Lemma setAccount_held_account_dangles_witness :
  let c := {| peer := 0; status := CLIENT_CONNECTED; mAccount := Some 7 |} in
  mAccount c = Some 7 /\
  7 ∈ ({[7; 8]} : gset Z) /\
  exists c',
    setAccount (Some 7) c {[7; 8]} = Done (c', {[7; 8]} ∖ {[7]}) /\
    mAccount c' = Some 7 /\
    7 ∉ ({[7; 8]} : gset Z) ∖ {[7]} /\
    unsetAccount c' ({[7; 8]} ∖ {[7]}) = Undefined /\
    AccountClient_delete c' ({[7; 8]} ∖ {[7]}) = Undefined.
Proof.
  intros c.
  assert (H1 : mAccount c = Some 7) by reflexivity.
  assert (H2 : 7 ∈ ({[7; 8]} : gset Z))
    by (apply (bool_decide_unpack _); vm_compute; reflexivity).
  split; [exact H1|]. split; [exact H2|].
  exact (setAccount_held_account_dangles 7 c {[7; 8]} H1 H2).
Defined.

End AccountClient.

(** * Logging

    [LOG_ERROR], [LOG_WARN], [LOG_INFO] and [LOG_DEBUG] of utils/logger.h
    take a chain of [<<] operands.  An entry keeps the level and the operands
    in order, each as it is handed to the stream. *)

Inductive LogLevel : Set := LogError | LogWarn | LogInfo | LogDebug.

Inductive StreamItem : Type :=
  | SText (s : string)            (* a string literal, a character or a std::string *)
  | SNum (z : Z)                  (* an integer or an enumerator *)
  | SCStr (p : option string).    (* a [char const *] that may be null; the
                                     stream writes it up to its first NUL *)

Record LogEntry : Type := mkLog {
  level : LogLevel;
  message : list StreamItem
}.

(** The double-quote character, for messages that quote a name. *)
Definition dquote : string := String (Ascii.ascii_of_nat 34) EmptyString.

Definition LOG_ERROR (m : list StreamItem) : LogEntry := mkLog LogError m.
Definition LOG_WARN (m : list StreamItem) : LogEntry := mkLog LogWarn m.
Definition LOG_INFO (m : list StreamItem) : LogEntry := mkLog LogInfo m.
Definition LOG_DEBUG (m : list StreamItem) : LogEntry := mkLog LogDebug m.

(** * game-server/itemmanager.cpp *)

Module ItemManager.

(** An XML document as libxml2 hands it over: element name, attributes and
    children in document order. *)
Inductive xmlNode : Type :=
  | XmlNode (name : string) (properties : list (string * string))
            (children : list xmlNode).

Definition node_name (n : xmlNode) : string :=
  match n with XmlNode nm _ _ => nm end.

Definition xmlChildrenNode (n : xmlNode) : list xmlNode :=
  match n with XmlNode _ _ cs => cs end.

(** [xmlDocGetRootElement] yields a null pointer for a document with no
    root element. *)
Record xmlDoc : Type := mkDoc { xmlDocGetRootElement : option xmlNode }.

Inductive ModifierType : Set :=
  | MOD_WEAPON_TYPE | MOD_WEAPON_RANGE | MOD_ELEMENT_TYPE | MOD_LIFETIME.

Inductive AttributeId : Set :=
  | BASE_ATTR_PHY_ATK_MIN | BASE_ATTR_PHY_ATK_DELTA | BASE_ATTR_HP
  | BASE_ATTR_PHY_RES | CHAR_ATTR_STRENGTH | CHAR_ATTR_AGILITY
  | CHAR_ATTR_DEXTERITY | CHAR_ATTR_VITALITY | CHAR_ATTR_INTELLIGENCE
  | CHAR_ATTR_WILLPOWER.

Inductive AttackZoneShape : Set := ATTZONESHAPE_RECT | ATTZONESHAPE_CONE.

Record AttackZone : Type := mkZone {
  shape : AttackZoneShape;
  multiTarget : bool;
  range : Z;
  angle : Z
}.

(** What reload() uses and this translation unit does not define: the
    resource manager, the XML helpers, the enumerators of [ItemType] and
    [WeaponType] (item.hpp; an enumerator is its integer value), the
    [ItemModifiers] container and the script factory. *)
Record Env : Type := mkEnv {
  loadFile : string -> option string;
  exists_ : string -> bool;
  xmlParseMemory : string -> option xmlDoc;
  getPropertyInt : xmlNode -> string -> Z -> Z;
  getPropertyStr : xmlNode -> string -> string -> string;
  atoi : string -> Z;
  ITEM_UNUSABLE : Z;
  ITEM_USABLE : Z;
  ITEM_EQUIPMENT_ONE_HAND_WEAPON : Z;
  ITEM_EQUIPMENT_TWO_HANDS_WEAPON : Z;
  ITEM_EQUIPMENT_AMMO : Z;
  ITEM_HAIRSPRITE : Z;
  ITEM_RACESPRITE : Z;
  ITEM_UNKNOWN : Z;
  itemTypeFromString : string -> Z;
  WPNTYPE_NONE : Z;
  weaponTypeFromString : string -> Z;
  ItemModifiers : Type;
  ItemModifiers_new : ItemModifiers;
  setValue : ModifierType -> Z -> ItemModifiers -> ItemModifiers;
  setAttributeValue : AttributeId -> Z -> ItemModifiers -> ItemModifiers;
  Script : Type;
  Script_create : string -> Script;
  Script_loadFile : string -> Script -> Script
}.

Section Manager.

Variable E : Env.

(** An item class, the object behind an [ItemClass *].  Objects are created
    by reload() only and stored under their id, so the table holds the object
    itself. *)
Record ItemClass : Type := mkItemClass {
  mDatabaseID : Z;
  mType : Z;
  mWeight : Z;
  mCost : Z;
  mMaxPerSlot : Z;
  mScript : option (Script E);
  mModifiers : ItemModifiers E;
  mSpriteID : Z;
  mAttackZone : option AttackZone
}.

(** [new ItemClass(id, itemType)].  The constructor sets the id, the type
    and null script and attack zone; reload() assigns every other field
    before the iteration that created the object ends. *)
Definition ItemClass_new (id ty : Z) : ItemClass :=
  {| mDatabaseID := id; mType := ty; mWeight := 0; mCost := 0;
     mMaxPerSlot := 0; mScript := None; mModifiers := ItemModifiers_new E;
     mSpriteID := 0; mAttackZone := None |}.

(** The file-level statics, and the log. *)
Record State : Type := mkState {
  itemClasses : gmap Z ItemClass;
  itemReferenceFile : string;
  itemDatabaseVersion : Z;
  log : list LogEntry
}.

Definition add_log (e : LogEntry) (st : State) : State :=
  {| itemClasses := itemClasses st;
     itemReferenceFile := itemReferenceFile st;
     itemDatabaseVersion := itemDatabaseVersion st;
     log := log st ++ [e] |}.

Definition set_version (v : Z) (st : State) : State :=
  {| itemClasses := itemClasses st;
     itemReferenceFile := itemReferenceFile st;
     itemDatabaseVersion := v;
     log := log st |}.

Definition set_item (id : Z) (c : ItemClass) (st : State) : State :=
  {| itemClasses := <[id := c]> (itemClasses st);
     itemReferenceFile := itemReferenceFile st;
     itemDatabaseVersion := itemDatabaseVersion st;
     log := log st |}.

Definition log_if (b : bool) (e : LogEntry) (st : State) : State :=
  if b then add_log e st else st.

(** Conversion of an [int] to [unsigned int]. *)
Definition to_unsigned (z : Z) : Z := z mod 2 ^ 32.

(** The value of an [int] expression: the low 32 bits, signed.  Past the
    range of [int] the expression is undefined in C++; this is what the
    machine's multiplication leaves. *)
Definition to_int (z : Z) : Z := (z + 2 ^ 31) mod 2 ^ 32 - 2 ^ 31.

Definition is_weapon (ty : Z) : bool :=
  (ty =? ITEM_EQUIPMENT_ONE_HAND_WEAPON E) || (ty =? ITEM_EQUIPMENT_TWO_HANDS_WEAPON E).

(** The modifiers an item node gives, lines 146-173.  The product at
    [lifetime] is a product of two [int]s. *)
Definition node_modifiers (node : xmlNode) (itemType : Z) : ItemModifiers E :=
  let gp := getPropertyInt E node in
  let m0 := ItemModifiers_new E in
  let m1 :=
    if is_weapon itemType then
      setValue E MOD_ELEMENT_TYPE (gp "element" 0)
        (setValue E MOD_WEAPON_RANGE (gp "range" 0)
           (setValue E MOD_WEAPON_TYPE
              (weaponTypeFromString E (getPropertyStr E node "weapon-type" EmptyString)) m0))
    else m0 in
  setAttributeValue E CHAR_ATTR_WILLPOWER (gp "willpower" 0)
  (setAttributeValue E CHAR_ATTR_INTELLIGENCE (gp "intelligence" 0)
  (setAttributeValue E CHAR_ATTR_VITALITY (gp "vitality" 0)
  (setAttributeValue E CHAR_ATTR_DEXTERITY (gp "dexterity" 0)
  (setAttributeValue E CHAR_ATTR_AGILITY (gp "agility" 0)
  (setAttributeValue E CHAR_ATTR_STRENGTH (gp "strength" 0)
  (setAttributeValue E BASE_ATTR_PHY_RES (gp "defense" 0)
  (setAttributeValue E BASE_ATTR_HP (gp "hp" 0)
  (setAttributeValue E BASE_ATTR_PHY_ATK_DELTA (gp "attack-delta" 0)
  (setAttributeValue E BASE_ATTR_PHY_ATK_MIN (gp "attack-min" 0)
  (setValue E MOD_LIFETIME (to_int (gp "lifetime" 0 * 10)) m1)))))))))).

(** The attack zone of a weapon, lines 220-248, with the warnings it logs. *)
Definition node_zone (node : xmlNode) (id : Z) (file : string)
  : AttackZone * list LogEntry :=
  let attackShape := getPropertyStr E node "attack-shape" "cone" in
  let attackTarget := getPropertyStr E node "attack-target" "multi" in
  let w1 :=
    if String.eqb attackShape "cone" then []
    else [LOG_WARN [SText "Item Manager: Unknown attack zone shape "; SText dquote;
                    SText attackShape; SText dquote; SText " for weapon "; SNum id; SText " in "; SText file; SText "."]] in
  let '(multi, w2) :=
    if String.eqb attackTarget "multi" then (true, [])
    else if String.eqb attackTarget "single" then (false, [])
    else (true,
          [LOG_WARN [SText "Item Manager: Unknown target mode "; SText dquote;
                     SText attackTarget; SText dquote; SText " for weapon "; SNum id; SText " in "; SText file; SText "."]]) in
  ({| shape := ATTZONESHAPE_CONE; multiTarget := multi;
      range := getPropertyInt E node "attack-range" 32;
      angle := getPropertyInt E node "attack-angle" 90 |}, w1 ++ w2).

(** One iteration of the loop over the children of the root, lines 82-256:
    the state and [nbItems] before, and after. *)
Definition load_node (node : xmlNode) (acc : State * Z) : State * Z :=
  let '(st, nbItems) := acc in
  let file := itemReferenceFile st in
  if String.eqb (node_name node) "version" then
    let revision := getPropertyStr E node "revision" EmptyString in
    let v := to_unsigned (atoi E revision) in
    (add_log (LOG_INFO [SText "Loading item database version "; SNum v])
       (set_version v st), nbItems)
  else if negb (String.eqb (node_name node) "item") then (st, nbItems)
  else
    let id := getPropertyInt E node "id" 0 in
    if id =? 0 then
      (add_log (LOG_WARN [SText "Item Manager: An (ignored) item has no ID in ";
                          SText file; SText "!"]) st, nbItems)
    else
      let sItemType := getPropertyStr E node "type" EmptyString in
      let itemType0 := itemTypeFromString E sItemType in
      let unknown := itemType0 =? ITEM_UNKNOWN E in
      let st1 :=
        log_if unknown
          (LOG_WARN [SText file; SText ": Unknown item type "; SText dquote;
                     SText sItemType; SText dquote; SText " for item #"; SNum id;
                     SText " - treating it as "; SText dquote; SText "generic";
                     SText dquote]) st in
      let itemType1 := if unknown then ITEM_UNUSABLE E else itemType0 in
      if (itemType1 =? ITEM_HAIRSPRITE E) || (itemType1 =? ITEM_RACESPRITE E)
      then (st1, nbItems)
      else
        let item :=
          match itemClasses st1 !! id with
          | None => ItemClass_new id itemType1
          | Some i => i
          end in
        let weight0 := getPropertyInt E node "weight" 0 in
        let value := getPropertyInt E node "value" 0 in
        let maxPerSlot0 := getPropertyInt E node "max-per-slot" 0 in
        let sprite := getPropertyInt E node "sprite_id" 0 in
        let scriptName := getPropertyStr E node "script_name" EmptyString in
        let sWeaponType := getPropertyStr E node "weapon-type" EmptyString in
        let noWeaponType :=
          is_weapon itemType1 && (weaponTypeFromString E sWeaponType =? WPNTYPE_NONE E) in
        let st2 :=
          log_if noWeaponType
            (LOG_WARN [SText file; SText ": Unknown weapon type "; SText dquote;
                       SText sWeaponType; SText dquote; SText " for item #"; SNum id;
                       SText " - treating it as generic item"]) st1 in
        let itemType2 := if noWeaponType then ITEM_UNUSABLE E else itemType1 in
        let modifiers := node_modifiers node itemType1 in
        let st3 :=
          log_if (maxPerSlot0 =? 0)
            (LOG_WARN [SText "Item Manager: Missing max-per-slot property for item ";
                       SNum id; SText " in "; SText file; SText "."]) st2 in
        let maxPerSlot1 := if maxPerSlot0 =? 0 then 1 else maxPerSlot0 in
        let equipment :=
          (ITEM_USABLE E <? itemType2) && (itemType2 <? ITEM_EQUIPMENT_AMMO E)
          && negb (maxPerSlot1 =? 1) in
        let st4 :=
          log_if equipment
            (LOG_WARN [SText "Item Manager: Setting max-per-slot property to 1 for equipment ";
                       SNum id; SText " in "; SText file; SText "."]) st3 in
        let maxPerSlot2 := if equipment then 1 else maxPerSlot1 in
        let st5 :=
          log_if (weight0 =? 0)
            (LOG_WARN [SText "Item Manager: Missing weight for item ";
                       SNum id; SText " in "; SText file; SText "."]) st4 in
        let weight1 := if weight0 =? 0 then 1 else weight0 in
        let filename := ("scripts/items/" +:+ pretty id +:+ ".lua")%string in
        let scripted := exists_ E filename in
        let st6 :=
          log_if scripted (LOG_INFO [SText ("Loading item script: " +:+ filename)]) st5 in
        let s :=
          if scripted then Some (Script_loadFile E filename (Script_create E "lua"))
          else None in
        let '(zone, zlog) :=
          if is_weapon itemType2 then
            let '(z, l) := node_zone node id file in (Some z, l)
          else (mAttackZone item, []) in
        let item' :=
          {| mDatabaseID := mDatabaseID item; mType := mType item;
             mWeight := weight1; mCost := value; mMaxPerSlot := maxPerSlot2;
             mScript := s; mModifiers := modifiers;
             mSpriteID := (if sprite =? 0 then id else sprite);
             mAttackZone := zone |} in
        let st7 := foldl (fun a e => add_log e a) st6 zlog in
        let st8 :=
          add_log (LOG_DEBUG [SText "Item: ID: "; SNum id; SText ", itemType: ";
                              SNum itemType2; SText ", weight: "; SNum weight1;
                              SText ", value: "; SNum value; SText ", scriptName: ";
                              SText scriptName; SText ", maxPerSlot: ";
                              SNum maxPerSlot2; SText "."]) st7 in
        (set_item id item' st8, to_unsigned (nbItems + 1)).

(** [void ItemManager::reload()] *)
Definition reload (st : State) : State :=
  let file := itemReferenceFile st in
  match loadFile E file with
  | None =>
      add_log (LOG_ERROR [SText "Item Manager: Could not find "; SText file; SText "!"]) st
  | Some data =>
      match xmlParseMemory E data with
      | None =>
          add_log (LOG_ERROR [SText "Item Manager: Error while parsing item database (";
                              SText file; SText ")!"]) st
      | Some doc =>
          match xmlDocGetRootElement doc with
          | Some node =>
              if String.eqb (node_name node) "items" then
                let st0 := add_log (LOG_INFO [SText "Loading item reference..."]) st in
                let '(st1, nbItems) :=
                  foldl (fun a n => load_node n a) (st0, 0) (xmlChildrenNode node) in
                add_log (LOG_INFO [SText "Loaded "; SNum nbItems; SText " items from ";
                                   SText file; SText "."]) st1
              else
                add_log (LOG_ERROR [SText "Item Manager: "; SText file;
                                    SText " is not a valid database file!"]) st
          | None =>
              add_log (LOG_ERROR [SText "Item Manager: "; SText file;
                                  SText " is not a valid database file!"]) st
          end
      end
  end.

(** [void ItemManager::initialize(std::string const &file)] *)
Definition initialize (file : string) (st : State) : State :=
  reload {| itemClasses := itemClasses st; itemReferenceFile := file;
            itemDatabaseVersion := itemDatabaseVersion st; log := log st |}.

(** [void ItemManager::deinitialize()] *)
Definition deinitialize (st : State) : State :=
  {| itemClasses := ∅; itemReferenceFile := itemReferenceFile st;
     itemDatabaseVersion := itemDatabaseVersion st; log := log st |}.

(** [ItemClass *ItemManager::getItem(int itemId)]: the object, or null. *)
Definition getItem (st : State) (itemId : Z) : option ItemClass :=
  itemClasses st !! itemId.

(** [unsigned int ItemManager::GetDatabaseVersion()] *)
Definition GetDatabaseVersion (st : State) : Z := itemDatabaseVersion st.

(** The three ways reload() gives up before it reads any item: the file is
    not found, it is not XML, or its root element is not [items]. *)
Inductive reload_gives_up (st : State) : Prop :=
  | missing_file :
      loadFile E (itemReferenceFile st) = None -> reload_gives_up st
  | parse_error data :
      loadFile E (itemReferenceFile st) = Some data ->
      xmlParseMemory E data = None -> reload_gives_up st
  | no_root data doc :
      loadFile E (itemReferenceFile st) = Some data ->
      xmlParseMemory E data = Some doc ->
      xmlDocGetRootElement doc = None -> reload_gives_up st
  | wrong_root data doc node :
      loadFile E (itemReferenceFile st) = Some data ->
      xmlParseMemory E data = Some doc ->
      xmlDocGetRootElement doc = Some node ->
      node_name node <> "items"%string -> reload_gives_up st.

Lemma add_log_items e st : itemClasses (add_log e st) = itemClasses st.
Proof. reflexivity. Qed.

Lemma add_log_version e st :
  itemDatabaseVersion (add_log e st) = itemDatabaseVersion st.
Proof. reflexivity. Qed.

(** A failed reload adds one error entry and nothing else. *)
Lemma reload_gives_up_log st :
  reload_gives_up st ->
  exists m, reload st = add_log (LOG_ERROR m) st.
Proof.
  intros [Hf | data Hf Hp | data doc Hf Hp Hr | data doc node Hf Hp Hr Hn];
    unfold reload; rewrite Hf; [eauto | | | ]; rewrite Hp; [eauto | | ];
    rewrite Hr; [eauto|].
  apply String.eqb_neq in Hn. rewrite Hn. eauto.
Qed.

(** C9.  When the item database file is missing, does not parse as XML or
    has a root element other than [items], reload() leaves the table of item
    classes and the stored database version as they were: getItem answers
    for every id what it answered before. *)
Theorem reload_failure_keeps_items (st : State) (itemId : Z) :
  reload_gives_up st ->
  itemClasses (reload st) = itemClasses st /\
  GetDatabaseVersion (reload st) = GetDatabaseVersion st /\
  getItem (reload st) itemId = getItem st itemId.
Proof.
  intros Hg. destruct (reload_gives_up_log st Hg) as [m ->].
  unfold GetDatabaseVersion, getItem.
  rewrite add_log_items, add_log_version. done.
Qed.

(** ** What a node of the document does to the table *)

(** The type an item node names, unknown types read as unusable
    (lines 109-117). *)
Definition node_type (node : xmlNode) : Z :=
  let t := itemTypeFromString E (getPropertyStr E node "type" EmptyString) in
  if t =? ITEM_UNKNOWN E then ITEM_UNUSABLE E else t.

(** The type once a weapon without weapon type is made unusable
    (lines 147-157). *)
Definition node_final_type (node : xmlNode) : Z :=
  if is_weapon (node_type node) &&
     (weaponTypeFromString E (getPropertyStr E node "weapon-type" EmptyString)
        =? WPNTYPE_NONE E)
  then ITEM_UNUSABLE E else node_type node.

(** The id under which a node is stored, if it is: an [item] node with an
    id other than 0 whose type is neither hair nor race sprite. *)
Definition target (node : xmlNode) : option Z :=
  if String.eqb (node_name node) "version" then None
  else if negb (String.eqb (node_name node) "item") then None
  else
    let id := getPropertyInt E node "id" 0 in
    if id =? 0 then None
    else if (node_type node =? ITEM_HAIRSPRITE E) || (node_type node =? ITEM_RACESPRITE E)
    then None
    else Some id.

(** The version a node gives, if it is a [version] node. *)
Definition node_version (node : xmlNode) : option Z :=
  if String.eqb (node_name node) "version"
  then Some (to_unsigned (atoi E (getPropertyStr E node "revision" EmptyString)))
  else None.

Definition node_weight (node : xmlNode) : Z :=
  let w := getPropertyInt E node "weight" 0 in if w =? 0 then 1 else w.

(** The max-per-slot a node gives, 1 when it gives none or 0
    (lines 175-180). *)
Definition node_given_max (node : xmlNode) : Z :=
  let m0 := getPropertyInt E node "max-per-slot" 0 in
  if m0 =? 0 then 1 else m0.

(** The max-per-slot that is stored (lines 175-188). *)
Definition node_max_per_slot (node : xmlNode) : Z :=
  let m0 := getPropertyInt E node "max-per-slot" 0 in
  let m1 := if m0 =? 0 then 1 else m0 in
  if (ITEM_USABLE E <? node_final_type node)
     && (node_final_type node <? ITEM_EQUIPMENT_AMMO E) && negb (m1 =? 1)
  then 1 else m1.

Definition node_sprite (node : xmlNode) (id : Z) : Z :=
  let s := getPropertyInt E node "sprite_id" 0 in if s =? 0 then id else s.

Lemma log_if_items b e st : itemClasses (log_if b e st) = itemClasses st.
Proof. by destruct b. Qed.

Lemma log_if_version b e st :
  itemDatabaseVersion (log_if b e st) = itemDatabaseVersion st.
Proof. by destruct b. Qed.

Lemma log_if_file b e st : itemReferenceFile (log_if b e st) = itemReferenceFile st.
Proof. by destruct b. Qed.

Lemma add_logs_fields (l : list LogEntry) : forall st,
  itemClasses (foldl (fun a e => add_log e a) st l) = itemClasses st /\
  itemDatabaseVersion (foldl (fun a e => add_log e a) st l) = itemDatabaseVersion st /\
  itemReferenceFile (foldl (fun a e => add_log e a) st l) = itemReferenceFile st.
Proof.
  induction l as [|e l IH]; intros st; simpl; [done|].
  destruct (IH (add_log e st)) as (H1 & H2 & H3). by rewrite H1, H2, H3.
Qed.

(** A node that is not stored leaves the table and the counter alone; a
    [version] node sets the version and nothing else does. *)
Lemma load_node_skip (node : xmlNode) (st : State) (n : Z) :
  target node = None ->
  itemClasses (load_node node (st, n)).1 = itemClasses st /\
  itemReferenceFile (load_node node (st, n)).1 = itemReferenceFile st /\
  itemDatabaseVersion (load_node node (st, n)).1
    = default (itemDatabaseVersion st) (node_version node) /\
  (load_node node (st, n)).2 = n.
Proof.
  unfold target, node_version, load_node.
  destruct (String.eqb (node_name node) "version"); [done|].
  destruct (negb (String.eqb (node_name node) "item")); [done|].
  destruct (getPropertyInt E node "id" 0 =? 0); [done|].
  fold (node_type node). cbv zeta.
  destruct ((node_type node =? ITEM_HAIRSPRITE E) || (node_type node =? ITEM_RACESPRITE E));
    [|discriminate].
  intros _. simpl. by rewrite log_if_items, log_if_file, log_if_version.
Qed.

(** The script an item gets: the one of [scripts/items/<id>.lua] when that
    file exists (lines 198-207). *)
Definition node_script (id : Z) : option (Script E) :=
  let filename := ("scripts/items/" +:+ pretty id +:+ ".lua")%string in
  if exists_ E filename
  then Some (Script_loadFile E filename (Script_create E "lua"))
  else None.

(** A node that is stored: the entry under its id is the one that was there,
    or a new one of the node's type, with the fields the node gives; no other
    entry, nor the version, changes; the counter goes up by one. *)
Lemma load_node_store (node : xmlNode) (st : State) (n : Z) (id : Z) :
  target node = Some id ->
  let old := default (ItemClass_new id (node_type node)) (itemClasses st !! id) in
  (exists c,
      itemClasses (load_node node (st, n)).1 !! id = Some c /\
      mDatabaseID c = mDatabaseID old /\
      mType c = mType old /\
      mWeight c = node_weight node /\
      mCost c = getPropertyInt E node "value" 0 /\
      mMaxPerSlot c = node_max_per_slot node /\
      mSpriteID c = node_sprite node id /\
      mScript c = node_script id) /\
  (forall id', id' <> id ->
      itemClasses (load_node node (st, n)).1 !! id' = itemClasses st !! id') /\
  id <> 0 /\
  itemReferenceFile (load_node node (st, n)).1 = itemReferenceFile st /\
  itemDatabaseVersion (load_node node (st, n)).1 = itemDatabaseVersion st /\
  (load_node node (st, n)).2 = to_unsigned (n + 1).
Proof.
  unfold target, load_node.
  destruct (String.eqb (node_name node) "version"); [done|].
  destruct (negb (String.eqb (node_name node) "item")); [done|].
  destruct (getPropertyInt E node "id" 0 =? 0) eqn:Hid; [done|].
  fold (node_type node). cbv zeta.
  destruct ((node_type node =? ITEM_HAIRSPRITE E) || (node_type node =? ITEM_RACESPRITE E));
    [done|].
  intros [= <-]. apply Z.eqb_neq in Hid.
  fold (node_final_type node).
  rewrite log_if_items.
  destruct (if is_weapon (node_final_type node) then _ else _) as [zone zlog].
  cbn [fst snd itemClasses itemReferenceFile itemDatabaseVersion set_item add_log].
  destruct (add_logs_fields zlog
    (log_if (exists_ E ("scripts/items/" +:+ pretty (getPropertyInt E node "id" 0) +:+ ".lua"))
       (LOG_INFO [SText ("Loading item script: " +:+
          ("scripts/items/" +:+ pretty (getPropertyInt E node "id" 0) +:+ ".lua"))])
    (log_if (getPropertyInt E node "weight" 0 =? 0)
       (LOG_WARN [SText "Item Manager: Missing weight for item ";
                  SNum (getPropertyInt E node "id" 0); SText " in ";
                  SText (itemReferenceFile st); SText "."])
    (log_if ((ITEM_USABLE E <? node_final_type node)
             && (node_final_type node <? ITEM_EQUIPMENT_AMMO E)
             && negb ((if getPropertyInt E node "max-per-slot" 0 =? 0 then 1
                       else getPropertyInt E node "max-per-slot" 0) =? 1))
       (LOG_WARN [SText "Item Manager: Setting max-per-slot property to 1 for equipment ";
                  SNum (getPropertyInt E node "id" 0); SText " in ";
                  SText (itemReferenceFile st); SText "."])
    (log_if (getPropertyInt E node "max-per-slot" 0 =? 0)
       (LOG_WARN [SText "Item Manager: Missing max-per-slot property for item ";
                  SNum (getPropertyInt E node "id" 0); SText " in ";
                  SText (itemReferenceFile st); SText "."])
    (log_if (is_weapon (node_type node)
             && (weaponTypeFromString E (getPropertyStr E node "weapon-type" EmptyString)
                   =? WPNTYPE_NONE E))
       (LOG_WARN [SText (itemReferenceFile st); SText ": Unknown weapon type ";
                  SText dquote; SText (getPropertyStr E node "weapon-type" EmptyString);
                  SText dquote; SText " for item #";
                  SNum (getPropertyInt E node "id" 0);
                  SText " - treating it as generic item"])
    (log_if (itemTypeFromString E (getPropertyStr E node "type" EmptyString)
               =? ITEM_UNKNOWN E)
       (LOG_WARN [SText (itemReferenceFile st); SText ": Unknown item type ";
                  SText dquote; SText (getPropertyStr E node "type" EmptyString);
                  SText dquote; SText " for item #";
                  SNum (getPropertyInt E node "id" 0);
                  SText " - treating it as "; SText dquote; SText "generic";
                  SText dquote]) st))))))) as (Hi & Hv & Hf).
  rewrite Hi, Hv, Hf, !log_if_items, !log_if_version, !log_if_file.
  split_and!; try done.
  - eexists. rewrite lookup_insert_eq. split; [reflexivity|]. simpl.
    split_and!; try reflexivity.
  - intros id' Hne. by rewrite lookup_insert_ne.
Qed.

(** ** What the loop does to the table *)

(** The loop of reload() over the children of the root. *)
Definition load_nodes (nodes : list xmlNode) (acc : State * Z) : State * Z :=
  foldl (fun a n => load_node n a) acc nodes.

Lemma load_nodes_cons node nodes acc :
  load_nodes (node :: nodes) acc = load_nodes nodes (load_node node acc).
Proof. reflexivity. Qed.

Lemma load_nodes_app nodes nodes' acc :
  load_nodes (nodes ++ nodes') acc = load_nodes nodes' (load_nodes nodes acc).
Proof. unfold load_nodes. apply foldl_app. Qed.

Lemma load_nodes_file nodes : forall acc,
  itemReferenceFile (load_nodes nodes acc).1 = itemReferenceFile acc.1.
Proof.
  induction nodes as [|node nodes IH]; intros [st n]; [done|].
  rewrite load_nodes_cons, IH.
  destruct (target node) as [id|] eqn:Ht.
  - by destruct (load_node_store node st n id Ht) as (_ & _ & _ & Hf & _).
  - by destruct (load_node_skip node st n Ht) as (_ & Hf & _).
Qed.

(** Entries that no node of the list names stay as they are. *)
Lemma load_nodes_other nodes (id : Z) : forall acc,
  Forall (fun node => target node <> Some id) nodes ->
  itemClasses (load_nodes nodes acc).1 !! id = itemClasses acc.1 !! id.
Proof.
  induction nodes as [|node nodes IH]; intros [st n] Hall; [done|].
  apply Forall_cons in Hall as [Hnode Hall].
  rewrite load_nodes_cons, (IH _ Hall).
  destruct (target node) as [id'|] eqn:Ht.
  - destruct (load_node_store node st n id' Ht) as (_ & Ho & _).
    apply Ho. congruence.
  - destruct (load_node_skip node st n Ht) as (Hi & _). by rewrite Hi.
Qed.

(** The ids in the table grow by the ids the nodes are stored under. *)
Lemma load_nodes_dom nodes : forall acc,
  dom (itemClasses (load_nodes nodes acc).1)
    = dom (itemClasses acc.1) ∪ list_to_set (omap target nodes).
Proof.
  induction nodes as [|node nodes IH]; intros [st n].
  - simpl. set_solver.
  - rewrite load_nodes_cons, IH. simpl omap.
    destruct (target node) as [id|] eqn:Ht.
    + destruct (load_node_store node st n id Ht) as ((c & Hc & _) & Ho & _).
      assert (Hd : dom (itemClasses (load_node node (st, n)).1)
                   = {[id]} ∪ dom (itemClasses st)).
      { apply set_eq. intros x. rewrite elem_of_union, !elem_of_dom, elem_of_singleton.
        destruct (decide (x = id)) as [->|Hne].
        - rewrite Hc. split; eauto.
        - rewrite (Ho x Hne). naive_solver. }
      rewrite Hd. simpl. set_solver.
    + destruct (load_node_skip node st n Ht) as (Hi & _). by rewrite Hi.
Qed.

(** An entry of the table stays an entry, with its id and its type. *)
Lemma load_nodes_keeps nodes (id : Z) : forall acc c,
  itemClasses acc.1 !! id = Some c ->
  exists c',
    itemClasses (load_nodes nodes acc).1 !! id = Some c' /\
    mDatabaseID c' = mDatabaseID c /\ mType c' = mType c.
Proof.
  induction nodes as [|node nodes IH]; intros [st n] c Hc; [by exists c|].
  rewrite load_nodes_cons. simpl in Hc.
  destruct (target node) as [id'|] eqn:Ht.
  - destruct (load_node_store node st n id' Ht) as ((c1 & Hc1 & Hid & Hty & _) & Ho & _).
    destruct (decide (id = id')) as [->|Hne].
    + rewrite Hc in Hid, Hty. simpl in Hid, Hty.
      destruct (IH (load_node node (st, n)) c1 Hc1) as (c' & H1 & H2 & H3).
      exists c'. split; [done|]. split; congruence.
    + apply IH. by rewrite (Ho id Hne).
  - destruct (load_node_skip node st n Ht) as (Hi & _).
    apply IH. by rewrite Hi.
Qed.

(** The version is that of the last [version] node, if there is one. *)
Lemma load_nodes_version nodes : forall acc,
  itemDatabaseVersion (load_nodes nodes acc).1
    = default (itemDatabaseVersion acc.1) (last (omap node_version nodes)).
Proof.
  induction nodes as [|node nodes IH]; intros [st n]; [done|].
  rewrite load_nodes_cons, IH. simpl omap.
  destruct (target node) as [id|] eqn:Ht.
  - destruct (load_node_store node st n id Ht) as (_ & _ & _ & _ & Hv & _).
    rewrite Hv.
    assert (Hnv : node_version node = None).
    { unfold target in Ht. unfold node_version.
      by destruct (String.eqb (node_name node) "version"). }
    by rewrite Hnv.
  - destruct (load_node_skip node st n Ht) as (_ & _ & Hv & _). rewrite Hv.
    destruct (node_version node) as [v|]; simpl; [|done].
    change (list_omap _ _ node_version nodes) with (omap node_version nodes).
    rewrite last_cons. by destruct (last (omap node_version nodes)).
Qed.

Lemma to_unsigned_range z : 0 <= to_unsigned z < 2 ^ 32.
Proof. unfold to_unsigned. apply Z.mod_pos_bound. lia. Qed.

(** The counter is the number of nodes stored, as an unsigned int. *)
Lemma load_nodes_count nodes : forall acc,
  0 <= acc.2 < 2 ^ 32 ->
  (load_nodes nodes acc).2
    = to_unsigned (acc.2 + Z.of_nat (List.length (omap target nodes))).
Proof.
  induction nodes as [|node nodes IH]; intros [st n] Hn; simpl in Hn.
  - simpl. unfold to_unsigned. rewrite Z.add_0_r, Z.mod_small; lia.
  - rewrite load_nodes_cons. simpl omap.
    destruct (target node) as [id|] eqn:Ht.
    + destruct (load_node_store node st n id Ht) as (_ & _ & _ & _ & _ & Hc).
      rewrite IH; rewrite Hc; [|apply to_unsigned_range].
      change (list_omap _ _ target nodes) with (omap target nodes).
      rewrite length_cons, Nat2Z.inj_succ. unfold to_unsigned.
      rewrite Zplus_mod_idemp_l. f_equal. cbn [snd]. lia.
    + destruct (load_node_skip node st n Ht) as (_ & _ & _ & Hc).
      rewrite IH; rewrite Hc; [done|lia].
Qed.

(** ** What reload() does to the table *)

(** reload() gets as far as the loop: the file is found, it parses, and its
    root element is [items]. *)
Inductive reload_reads (st : State) (root : xmlNode) : Prop :=
  | reads data doc :
      loadFile E (itemReferenceFile st) = Some data ->
      xmlParseMemory E data = Some doc ->
      xmlDocGetRootElement doc = Some root ->
      node_name root = "items"%string ->
      reload_reads st root.

Definition loading : LogEntry := LOG_INFO [SText "Loading item reference..."].

Definition loaded (nbItems : Z) (file : string) : LogEntry :=
  LOG_INFO [SText "Loaded "; SNum nbItems; SText " items from "; SText file; SText "."].

Lemma reload_reads_eq (st : State) (root : xmlNode) :
  reload_reads st root ->
  reload st =
    add_log (loaded (load_nodes (xmlChildrenNode root) (add_log loading st, 0)).2
                    (itemReferenceFile st))
      (load_nodes (xmlChildrenNode root) (add_log loading st, 0)).1.
Proof.
  intros [data doc Hf Hp Hr Hn]. apply String.eqb_eq in Hn.
  unfold reload. rewrite Hf, Hp, Hr, Hn. cbv zeta.
  unfold load_nodes, loading, loaded. by destruct (foldl _ _ _).
Qed.

Lemma reload_cases (st : State) :
  reload_gives_up st \/ exists root, reload_reads st root.
Proof.
  destruct (loadFile E (itemReferenceFile st)) as [data|] eqn:Hf;
    [|left; by apply missing_file].
  destruct (xmlParseMemory E data) as [doc|] eqn:Hp;
    [|left; by eapply parse_error].
  destruct (xmlDocGetRootElement doc) as [root|] eqn:Hr;
    [|left; by eapply no_root].
  destruct (String.eqb (node_name root) "items") eqn:Hn.
  - right. exists root. apply String.eqb_eq in Hn. by eapply reads.
  - left. apply String.eqb_neq in Hn. by eapply wrong_root.
Qed.

(** The table after a reload that reads [root]. *)
Lemma reload_reads_items (st : State) (root : xmlNode) :
  reload_reads st root ->
  itemClasses (reload st)
    = itemClasses (load_nodes (xmlChildrenNode root) (add_log loading st, 0)).1.
Proof. intros Hr. by rewrite (reload_reads_eq st root Hr). Qed.

(** X3.  reload() never drops an item class and never changes the id or
    the type of one that is in the table: whatever the file holds, an id for
    which getItem had an answer still has one, with the same id and type. *)
Theorem reload_keeps_entries (st : State) (itemId : Z) (c : ItemClass) :
  getItem st itemId = Some c ->
  exists c',
    getItem (reload st) itemId = Some c' /\
    mDatabaseID c' = mDatabaseID c /\
    mType c' = mType c.
Proof.
  unfold getItem. intros Hc. destruct (reload_cases st) as [Hg|[root Hr]].
  - destruct (reload_gives_up_log st Hg) as [m ->]. by exists c.
  - rewrite (reload_reads_items st root Hr).
    by apply (load_nodes_keeps (xmlChildrenNode root) itemId (add_log loading st, 0) c).
Qed.

(** X4.  After a reload that reads a document, getItem has an answer for
    exactly the ids it had one for before and the ids of the document's
    [item] nodes that have an id other than 0 and a type other than hair or
    race sprite. *)
Theorem reload_table_ids (st : State) (root : xmlNode) (itemId : Z) :
  reload_reads st root ->
  (is_Some (getItem (reload st) itemId) <->
   is_Some (getItem st itemId) \/ itemId ∈ omap target (xmlChildrenNode root)).
Proof.
  intros Hr. unfold getItem. rewrite (reload_reads_items st root Hr).
  rewrite <- !elem_of_dom, load_nodes_dom. simpl. set_solver.
Qed.

Lemma node_weight_nonzero node : node_weight node <> 0.
Proof.
  unfold node_weight. destruct (getPropertyInt E node "weight" 0 =? 0) eqn:H;
    [done|by apply Z.eqb_neq].
Qed.

Lemma node_max_per_slot_nonzero node : node_max_per_slot node <> 0.
Proof.
  unfold node_max_per_slot.
  destruct (_ && _ && _); [done|].
  destruct (getPropertyInt E node "max-per-slot" 0 =? 0) eqn:H;
    [done|by apply Z.eqb_neq].
Qed.

Lemma node_max_per_slot_equipment node :
  ITEM_USABLE E < node_final_type node < ITEM_EQUIPMENT_AMMO E ->
  node_max_per_slot node = 1.
Proof.
  intros [H1 H2]. unfold node_max_per_slot.
  apply Z.ltb_lt in H1, H2. rewrite H1, H2. simpl.
  destruct (_ =? 1) eqn:H; simpl; [by apply Z.eqb_eq|done].
Qed.

Lemma node_max_per_slot_other node :
  ~ (ITEM_USABLE E < node_final_type node < ITEM_EQUIPMENT_AMMO E) ->
  node_max_per_slot node = node_given_max node.
Proof.
  intros Hout. unfold node_max_per_slot.
  destruct (ITEM_USABLE E <? node_final_type node) eqn:H1; [|done].
  destruct (node_final_type node <? ITEM_EQUIPMENT_AMMO E) eqn:H2; [|done].
  apply Z.ltb_lt in H1, H2. destruct Hout. by split.
Qed.

Lemma node_sprite_nonzero node id : id <> 0 -> node_sprite node id <> 0.
Proof.
  intros Hid. unfold node_sprite.
  destruct (getPropertyInt E node "sprite_id" 0 =? 0) eqn:H;
    [done|by apply Z.eqb_neq].
Qed.

(** X5.  When several [item] nodes of a document carry the same id, the
    last one decides: after the reload the entry has the weight, cost,
    max-per-slot, sprite id and script that node gives (weight and
    max-per-slot 1 when missing or 0, the id as sprite id when that is
    missing).  The max-per-slot is made 1, whatever the node says, exactly
    when the type the loop has for the node at that point lies strictly
    between [ITEM_USABLE] and [ITEM_EQUIPMENT_AMMO]; that type is the one the
    node names, or [ITEM_UNUSABLE] for a name that is not known and for a
    weapon whose weapon type is not known.  Such a weapon keeps the
    max-per-slot the node gives when [ITEM_UNUSABLE] is outside that range,
    although an entry this node creates is stored with the weapon type. *)
Theorem reload_last_node_decides
    (st : State) (root : xmlNode) (before : list xmlNode) (node : xmlNode)
    (later : list xmlNode) (itemId : Z) :
  reload_reads st root ->
  xmlChildrenNode root = before ++ node :: later ->
  target node = Some itemId ->
  Forall (fun n => target n <> Some itemId) later ->
  exists c,
    getItem (reload st) itemId = Some c /\
    mWeight c = node_weight node /\
    mCost c = getPropertyInt E node "value" 0 /\
    mMaxPerSlot c = node_max_per_slot node /\
    mSpriteID c = node_sprite node itemId /\
    mScript c = node_script itemId /\
    (ITEM_USABLE E < node_final_type node < ITEM_EQUIPMENT_AMMO E -> mMaxPerSlot c = 1) /\
    (~ (ITEM_USABLE E < node_final_type node < ITEM_EQUIPMENT_AMMO E) ->
     mMaxPerSlot c = node_given_max node) /\
    (is_weapon (node_type node) = true ->
     weaponTypeFromString E (getPropertyStr E node "weapon-type" EmptyString)
       = WPNTYPE_NONE E ->
     node_final_type node = ITEM_UNUSABLE E /\
     (~ (ITEM_USABLE E < ITEM_UNUSABLE E < ITEM_EQUIPMENT_AMMO E) ->
      mMaxPerSlot c = node_given_max node)) /\
    (getItem st itemId = None ->
     Forall (fun n => target n <> Some itemId) before ->
     mType c = node_type node).
Proof.
  intros Hr Hch Ht Hlater. unfold getItem.
  rewrite (reload_reads_items st root Hr), Hch.
  rewrite load_nodes_app, load_nodes_cons.
  rewrite (load_nodes_other later itemId _ Hlater).
  pose proof (load_nodes_other before itemId (add_log loading st, 0)) as Hbefore.
  destruct (load_nodes before (add_log loading st, 0)) as [st1 n1].
  destruct (load_node_store node st1 n1 itemId Ht)
    as ((c & Hc & _ & Hty & Hw & Hcost & Hm & Hs & Hsc) & _).
  exists c. split_and!; try done.
  - intros Heq. rewrite Hm. by apply node_max_per_slot_equipment.
  - intros Hout. rewrite Hm. by apply node_max_per_slot_other.
  - intros Hweapon Hnone.
    assert (Hfinal : node_final_type node = ITEM_UNUSABLE E).
    { unfold node_final_type. rewrite Hweapon, Hnone, Z.eqb_refl. reflexivity. }
    split; [exact Hfinal|].
    intros Hout. rewrite Hm. apply node_max_per_slot_other. by rewrite Hfinal.
  - intros Hnew Hb. rewrite Hty. simpl in Hbefore. rewrite (Hbefore Hb).
    cbn [itemClasses add_log]. by rewrite Hnew.
Qed.

(** The entries of a table are well formed: each is stored under its own
    id, which is not 0, and has a weight, a max-per-slot and a sprite id
    other than 0. *)
Definition items_ok (st : State) : Prop :=
  forall id c, getItem st id = Some c ->
    id <> 0 /\ mDatabaseID c = id /\
    mWeight c <> 0 /\ mMaxPerSlot c <> 0 /\ mSpriteID c <> 0.

Lemma load_nodes_ok nodes : forall acc,
  items_ok acc.1 -> items_ok (load_nodes nodes acc).1.
Proof.
  induction nodes as [|node nodes IH]; intros [st n] Hok; [done|].
  rewrite load_nodes_cons. apply IH.
  destruct (target node) as [id|] eqn:Ht.
  - destruct (load_node_store node st n id Ht)
      as ((c & Hc & Hid & _ & Hw & _ & Hm & Hs & _) & Ho & Hne & _).
    intros id' c' Hc'. unfold getItem in Hc'.
    destruct (decide (id' = id)) as [->|Hne'].
    + rewrite Hc in Hc'. injection Hc' as <-.
      split_and!; [done| |by rewrite Hw; apply node_weight_nonzero
                  |by rewrite Hm; apply node_max_per_slot_nonzero
                  |by rewrite Hs; apply node_sprite_nonzero].
      rewrite Hid. simpl. destruct (itemClasses st !! id) as [old|] eqn:Hold; [|done].
      by destruct (Hok id old Hold) as (_ & ? & _).
    + rewrite (Ho id' Hne') in Hc'. by apply (Hok id' c').
  - destruct (load_node_skip node st n Ht) as (Hi & _).
    intros id' c' Hc'. unfold getItem in Hc'. rewrite Hi in Hc'. by apply (Hok id' c').
Qed.

Lemma reload_ok (st : State) : items_ok st -> items_ok (reload st).
Proof.
  intros Hok. destruct (reload_cases st) as [Hg|[root Hr]].
  - destruct (reload_gives_up_log st Hg) as [m ->]. exact Hok.
  - intros id c. unfold getItem. rewrite (reload_reads_items st root Hr).
    by apply (load_nodes_ok (xmlChildrenNode root) (add_log loading st, 0)).
Qed.

(** X6.  reload() keeps the table well formed: if every entry is stored
    under its own id, other than 0, with weight, max-per-slot and sprite id
    other than 0, the same holds after the reload, whatever the file holds;
    and it holds of every table that initialize() builds after
    deinitialize(). *)
Theorem reload_keeps_table_well_formed (st : State) (file : string) :
  items_ok st ->
  items_ok (reload st) /\
  items_ok (initialize file (deinitialize st)).
Proof.
  intros Hok. split; [by apply reload_ok|].
  unfold initialize. apply reload_ok. intros id c. unfold getItem. simpl.
  by rewrite lookup_empty.
Qed.

Lemma reload_version_last (st : State) (root : xmlNode) :
  reload_reads st root ->
  itemDatabaseVersion (reload st)
    = default (itemDatabaseVersion st)
        (last (omap node_version (xmlChildrenNode root))).
Proof.
  intros Hr. rewrite (reload_reads_eq st root Hr). simpl. by rewrite load_nodes_version.
Qed.

(** X7.  After a reload that reads a document the database version is the
    revision of the document's last [version] node, converted by atoi and
    taken as an unsigned int; a document without such a node leaves the
    version of the previous load in place. *)
Theorem reload_version (st : State) (root : xmlNode) :
  reload_reads st root ->
  GetDatabaseVersion (reload st)
    = default (GetDatabaseVersion st)
        (last (omap node_version (xmlChildrenNode root))) /\
  (Forall (fun n => node_name n <> "version"%string) (xmlChildrenNode root) ->
   GetDatabaseVersion (reload st) = GetDatabaseVersion st).
Proof.
  intros Hr. unfold GetDatabaseVersion.
  pose proof (reload_version_last st root Hr) as Hv.
  split; [exact Hv|].
  intros Hall. rewrite Hv. clear Hv.
  assert (Hnone : omap node_version (xmlChildrenNode root) = []).
  { induction Hall as [|n l Hn _ IH]; [done|].
    change (omap node_version (n :: l))
      with (match node_version n with
            | Some v => v :: omap node_version l
            | None => omap node_version l
            end).
    unfold node_version at 1. apply String.eqb_neq in Hn. by rewrite Hn. }
  by rewrite Hnone.
Qed.

(** X8.  The last thing a reload that reads a document logs is the number
    of items it loaded: the number of nodes it stored, counted as an
    unsigned int, nodes with the same id counted each time. *)
Theorem reload_logs_count (st : State) (root : xmlNode) :
  reload_reads st root ->
  last (log (reload st))
    = Some (loaded (to_unsigned (Z.of_nat (List.length (omap target (xmlChildrenNode root)))))
                   (itemReferenceFile st)).
Proof.
  intros Hr. rewrite (reload_reads_eq st root Hr). simpl log.
  rewrite last_snoc. do 2 f_equal.
  rewrite load_nodes_count; simpl; [done|lia].
Qed.

(** ** Reloading twice *)

(** The attack zone a weapon node gives (lines 220-248). *)
Definition node_attack_zone (node : xmlNode) : AttackZone :=
  {| shape := ATTZONESHAPE_CONE;
     multiTarget :=
       if String.eqb (getPropertyStr E node "attack-target" "multi") "multi" then true
       else if String.eqb (getPropertyStr E node "attack-target" "multi") "single" then false
       else true;
     range := getPropertyInt E node "attack-range" 32;
     angle := getPropertyInt E node "attack-angle" 90 |}.

Lemma node_zone_fst node id file : (node_zone node id file).1 = node_attack_zone node.
Proof.
  unfold node_zone, node_attack_zone.
  destruct (String.eqb (getPropertyStr E node "attack-target" "multi") "multi"); [done|].
  by destruct (String.eqb (getPropertyStr E node "attack-target" "multi") "single").
Qed.

(** The entry a stored node makes of the entry [item]: the setters of lines
    209-214 and 250. *)
Definition entry_after (node : xmlNode) (id : Z) (item : ItemClass) : ItemClass :=
  {| mDatabaseID := mDatabaseID item;
     mType := mType item;
     mWeight := node_weight node;
     mCost := getPropertyInt E node "value" 0;
     mMaxPerSlot := node_max_per_slot node;
     mScript := node_script id;
     mModifiers := node_modifiers node (node_type node);
     mSpriteID := node_sprite node id;
     mAttackZone :=
       if is_weapon (node_final_type node) then Some (node_attack_zone node)
       else mAttackZone item |}.

(** What one iteration does to the table. *)
Definition table_step (node : xmlNode) (tbl : gmap Z ItemClass) : gmap Z ItemClass :=
  match target node with
  | Some id =>
      <[id := entry_after node id
                (default (ItemClass_new id (node_type node)) (tbl !! id))]> tbl
  | None => tbl
  end.

Lemma load_node_table (node : xmlNode) (st : State) (n : Z) :
  itemClasses (load_node node (st, n)).1 = table_step node (itemClasses st).
Proof.
  unfold table_step. destruct (target node) as [id|] eqn:Ht;
    [|by destruct (load_node_skip node st n Ht) as (Hi & _)].
  revert Ht. unfold target, load_node.
  destruct (String.eqb (node_name node) "version"); [done|].
  destruct (negb (String.eqb (node_name node) "item")); [done|].
  destruct (getPropertyInt E node "id" 0 =? 0) eqn:Hid; [done|].
  fold (node_type node). cbv zeta.
  destruct ((node_type node =? ITEM_HAIRSPRITE E) || (node_type node =? ITEM_RACESPRITE E));
    [done|].
  intros [= <-].
  fold (node_final_type node).
  rewrite log_if_items.
  unfold entry_after, node_weight, node_max_per_slot, node_sprite, node_script.
  fold (node_final_type node).
  destruct (is_weapon (node_final_type node)).
  - pose proof (node_zone_fst node (getPropertyInt E node "id" 0)
                  (itemReferenceFile st)) as Hz.
    destruct (node_zone node _ _) as [z l]. simpl in Hz. subst z.
    cbn [fst itemClasses set_item add_log].
    match goal with
    | |- context [foldl (fun a e => add_log e a) ?s0 l] =>
        destruct (add_logs_fields l s0) as (Hi & _ & _); rewrite Hi
    end.
    by rewrite !log_if_items.
  - cbn [fst itemClasses set_item add_log foldl].
    by rewrite !log_if_items.
Qed.

Lemma load_nodes_table nodes : forall acc,
  itemClasses (load_nodes nodes acc).1
    = foldl (fun t n => table_step n t) (itemClasses acc.1) nodes.
Proof.
  induction nodes as [|node nodes IH]; intros [st n]; [done|].
  rewrite load_nodes_cons, IH, load_node_table. reflexivity.
Qed.

(** What one iteration does to the entry of [id], if there is one. *)
Definition entry_step (id : Z) (o : option ItemClass) (node : xmlNode)
  : option ItemClass :=
  if decide (target node = Some id)
  then Some (entry_after node id (default (ItemClass_new id (node_type node)) o))
  else o.

Lemma table_fold_lookup nodes (id : Z) : forall tbl,
  foldl (fun t n => table_step n t) tbl nodes !! id
    = foldl (entry_step id) (tbl !! id) nodes.
Proof.
  induction nodes as [|node nodes IH]; intros tbl; [done|].
  simpl. rewrite IH. f_equal. unfold table_step, entry_step.
  destruct (target node) as [id'|].
  - destruct (decide (Some id' = Some id)) as [[= ->]|Hne].
    + by rewrite lookup_insert_eq.
    + rewrite lookup_insert_ne; [done|congruence].
  - by destruct (decide (None = Some id)).
Qed.

(** The nodes of a list that are stored under [id], run over an entry. *)
Definition entries_after (id : Z) (ts : list xmlNode) (e : ItemClass) : ItemClass :=
  foldl (fun e n => entry_after n id e) e ts.

Definition zones_after (ts : list xmlNode) (z : option AttackZone) : option AttackZone :=
  foldl (fun z n => if is_weapon (node_final_type n) then Some (node_attack_zone n) else z)
        z ts.

Lemma entries_after_kept id ts : forall e,
  mDatabaseID (entries_after id ts e) = mDatabaseID e /\
  mType (entries_after id ts e) = mType e /\
  mAttackZone (entries_after id ts e) = zones_after ts (mAttackZone e).
Proof.
  induction ts as [|n ts IH]; intros e; [done|].
  simpl. destruct (IH (entry_after n id e)) as (H1 & H2 & H3).
  by rewrite H1, H2, H3.
Qed.

Lemma zones_after_idem ts z : zones_after ts (zones_after ts z) = zones_after ts z.
Proof.
  induction ts as [|n ts IH] using rev_ind; [done|].
  unfold zones_after in *. rewrite !foldl_snoc.
  destruct (is_weapon (node_final_type n)); [done|]. exact IH.
Qed.

Lemma entry_after_agree n id e e' :
  mDatabaseID e = mDatabaseID e' ->
  mType e = mType e' ->
  (is_weapon (node_final_type n) = false -> mAttackZone e = mAttackZone e') ->
  entry_after n id e = entry_after n id e'.
Proof.
  intros H1 H2 H3. unfold entry_after. rewrite H1, H2.
  destruct (is_weapon (node_final_type n)); [done|]. by rewrite H3.
Qed.

Lemma entries_after_idem id ts e :
  ts <> [] -> entries_after id ts (entries_after id ts e) = entries_after id ts e.
Proof.
  destruct ts as [|n ts _] using rev_ind; [done|]. intros _.
  unfold entries_after. rewrite !foldl_snoc.
  fold (entries_after id ts e).
  fold (entries_after id ts (entry_after n id (entries_after id ts e))).
  destruct (entries_after_kept id ts e) as (H1 & H2 & H3).
  destruct (entries_after_kept id ts (entry_after n id (entries_after id ts e)))
    as (H1' & H2' & H3').
  apply entry_after_agree.
  - rewrite H1'. simpl. done.
  - rewrite H2'. simpl. done.
  - intros Hw. rewrite H3', H3. simpl. rewrite Hw, H3. apply zones_after_idem.
Qed.

(** The entry of [id] after the loop, by the nodes stored under [id]. *)
Lemma entry_fold_stored id nodes : forall o,
  foldl (entry_step id) o nodes =
    match filter (fun n => target n = Some id) nodes with
    | [] => o
    | t :: ts =>
        Some (entries_after id (t :: ts) (default (ItemClass_new id (node_type t)) o))
    end.
Proof.
  induction nodes as [|n nodes IH]; intros o; [done|].
  simpl foldl. rewrite IH. unfold entry_step.
  destruct (decide (target n = Some id)) as [Ht|Ht].
  - rewrite filter_cons_True; [|done]. by destruct (filter _ nodes).
  - by rewrite filter_cons_False.
Qed.

Lemma entry_fold_idem id nodes o :
  foldl (entry_step id) (foldl (entry_step id) o nodes) nodes
    = foldl (entry_step id) o nodes.
Proof.
  rewrite !entry_fold_stored.
  destruct (filter (fun n => target n = Some id) nodes) as [|t ts]; [done|].
  f_equal. by apply (entries_after_idem id (t :: ts)).
Qed.

Lemma table_fold_idem nodes tbl :
  foldl (fun t n => table_step n t) (foldl (fun t n => table_step n t) tbl nodes) nodes
    = foldl (fun t n => table_step n t) tbl nodes.
Proof.
  apply map_eq. intros id. rewrite !table_fold_lookup. apply entry_fold_idem.
Qed.

Lemma reload_file (st : State) : itemReferenceFile (reload st) = itemReferenceFile st.
Proof.
  destruct (reload_cases st) as [Hg|[root Hr]].
  - by destruct (reload_gives_up_log st Hg) as [m ->].
  - rewrite (reload_reads_eq st root Hr). simpl. by rewrite load_nodes_file.
Qed.

Lemma reload_gives_up_again (st : State) :
  reload_gives_up st -> reload_gives_up (reload st).
Proof.
  intros Hg. pose proof (reload_file st) as Hf.
  destruct Hg as [H1 | data H1 H2 | data doc H1 H2 H3 | data doc node H1 H2 H3 H4].
  - apply missing_file. by rewrite Hf.
  - eapply parse_error; [by rewrite Hf|done].
  - eapply no_root; [by rewrite Hf|done|done].
  - eapply wrong_root; [by rewrite Hf|done|done|done].
Qed.

Lemma reload_reads_again (st : State) (root : xmlNode) :
  reload_reads st root -> reload_reads (reload st) root.
Proof.
  intros [data doc H1 H2 H3 H4]. pose proof (reload_file st) as Hf.
  eapply reads; [by rewrite Hf|done|done|done].
Qed.

(** X17.  Reloading the same file twice does no more than reloading it
    once: whatever the table held and whatever the file holds, a second
    reload() leaves every item class and the database version exactly as the
    first one left them. *)
Theorem reload_twice (st : State) (itemId : Z) :
  itemClasses (reload (reload st)) = itemClasses (reload st) /\
  getItem (reload (reload st)) itemId = getItem (reload st) itemId /\
  GetDatabaseVersion (reload (reload st)) = GetDatabaseVersion (reload st).
Proof.
  assert (H : itemClasses (reload (reload st)) = itemClasses (reload st) /\
              itemDatabaseVersion (reload (reload st)) = itemDatabaseVersion (reload st)).
  { destruct (reload_cases st) as [Hg|[root Hr]].
    - destruct (reload_gives_up_log (reload st) (reload_gives_up_again st Hg)) as [m ->].
      done.
    - pose proof (reload_reads_again st root Hr) as Hr'. split.
      + rewrite (reload_reads_items _ root Hr'), load_nodes_table. simpl.
        rewrite (reload_reads_items _ root Hr), load_nodes_table. simpl.
        apply table_fold_idem.
      + rewrite (reload_version_last _ root Hr'), (reload_version_last st root Hr).
        by destruct (last (omap node_version (xmlChildrenNode root))). }
  destruct H as [Hi Hv]. unfold getItem, GetDatabaseVersion. by rewrite Hi, Hv.
Qed.

End Manager.

(** ** A concrete environment

    Two database files and one that does not exist, to run reload() on. *)

Definition digit_of (c : ascii) : option Z :=
  let n := Z.of_nat (nat_of_ascii c) in
  if (48 <=? n) && (n <=? 57) then Some (n - 48) else None.

Fixpoint digits (s : string) (acc : Z) : Z :=
  match s with
  | EmptyString => acc
  | String c s' =>
      match digit_of c with
      | Some d => digits s' (10 * acc + d)
      | None => acc
      end
  end.

(** The characters [isspace] accepts: space, and tab to carriage return. *)
Definition is_space (c : ascii) : bool :=
  let n := Z.of_nat (nat_of_ascii c) in
  (n =? 32) || ((9 <=? n) && (n <=? 13)).

Fixpoint skip_spaces (s : string) : string :=
  match s with
  | String c s' => if is_space c then skip_spaces s' else s
  | EmptyString => s
  end.

(** [atoi]: leading white space, an optional sign, then digits up to the
    first character that is not one.  The value is the one of [strtol], kept
    within [long], cut to [int]. *)
Definition sample_atoi (s : string) : Z :=
  let v :=
    match skip_spaces s with
    | String "-" s' => - digits s' 0
    | String "+" s' => digits s' 0
    | s' => digits s' 0
    end in
  let long := Z.max (- 2 ^ 63) (Z.min (2 ^ 63 - 1) v) in
  (long + 2 ^ 31) mod 2 ^ 32 - 2 ^ 31.

Fixpoint assoc (k : string) (l : list (string * string)) : option string :=
  match l with
  | [] => None
  | (k', v) :: l' => if String.eqb k k' then Some v else assoc k l'
  end.

Definition node_prop (n : xmlNode) (k : string) : option string :=
  match n with XmlNode _ ps _ => assoc k ps end.

Definition items_xml : string :=
  "<items><version revision='12'/><item id='5' type='usable' weight='3' value='40'/></items>".

Definition monsters_xml : string := "<monsters/>".

Definition items_doc : xmlDoc :=
  mkDoc (Some (XmlNode "items" []
    [ XmlNode "version" [("revision", "12")] [];
      XmlNode "item" [("id", "5"); ("type", "usable"); ("weight", "3"); ("value", "40")] [] ])).

Definition monsters_doc : xmlDoc := mkDoc (Some (XmlNode "monsters" [] [])).

Definition sample_env : Env :=
  {| loadFile := fun f =>
       if String.eqb f "items.xml" then Some items_xml
       else if String.eqb f "monsters.xml" then Some monsters_xml
       else if String.eqb f "garbled.xml" then Some "<items"%string
       else None;
     exists_ := fun _ => false;
     xmlParseMemory := fun d =>
       if String.eqb d items_xml then Some items_doc
       else if String.eqb d monsters_xml then Some monsters_doc
       else None;
     getPropertyInt := fun n k def =>
       match node_prop n k with Some v => sample_atoi v | None => def end;
     getPropertyStr := fun n k def =>
       match node_prop n k with Some v => v | None => def end;
     atoi := sample_atoi;
     ITEM_UNUSABLE := 0;
     ITEM_USABLE := 1;
     ITEM_EQUIPMENT_ONE_HAND_WEAPON := 2;
     ITEM_EQUIPMENT_TWO_HANDS_WEAPON := 3;
     ITEM_EQUIPMENT_AMMO := 12;
     ITEM_HAIRSPRITE := 13;
     ITEM_RACESPRITE := 14;
     ITEM_UNKNOWN := 15;
     itemTypeFromString := fun s => if String.eqb s "usable" then 1 else 15;
     WPNTYPE_NONE := 0;
     weaponTypeFromString := fun _ => 0;
     ItemModifiers := list ((ModifierType + AttributeId) * Z);
     ItemModifiers_new := [];
     setValue := fun k v m => m ++ [(inl k, v)];
     setAttributeValue := fun k v m => m ++ [(inr k, v)];
     Script := string;
     Script_create := fun _ => EmptyString;
     Script_loadFile := fun f _ => f |}.

Definition empty_state (file : string) : State sample_env :=
  {| itemClasses := ∅; itemReferenceFile := file;
     itemDatabaseVersion := 0; log := [] |}.

(** The table after a successful load of items.xml. *)
Definition loaded_state : State sample_env :=
  reload sample_env (empty_state "items.xml").

Definition redirect (file : string) (st : State sample_env) : State sample_env :=
  {| itemClasses := itemClasses _ st; itemReferenceFile := file;
     itemDatabaseVersion := itemDatabaseVersion _ st; log := log _ st |}.

(** A load that succeeds fills the table and the version. *)
Example reload_items_xml :
  GetDatabaseVersion _ loaded_state = 12 /\
  (mWeight _ <$> getItem _ loaded_state 5) = Some 3 /\
  (mCost _ <$> getItem _ loaded_state 5) = Some 40 /\
  (mMaxPerSlot _ <$> getItem _ loaded_state 5) = Some 1 /\
  (mSpriteID _ <$> getItem _ loaded_state 5) = Some 5 /\
  getItem _ loaded_state 6 = None.
Proof. repeat split. Qed.

(** C9 at the loaded table, with the reference file gone. *)
Lemma reload_failure_keeps_items_witness :
  let st := redirect "gone.xml" loaded_state in
  reload_gives_up sample_env st /\
  (itemClasses _ (reload sample_env st) = itemClasses _ st /\
   GetDatabaseVersion _ (reload sample_env st) = GetDatabaseVersion _ st /\
   getItem _ (reload sample_env st) 5 = getItem _ st 5).
Proof.
  intros st.
  assert (Hg : reload_gives_up sample_env st) by (apply missing_file; reflexivity).
  split; [exact Hg | exact (reload_failure_keeps_items sample_env st 5 Hg)].
Defined.

(** The other ways of giving up, on the same table. *)
Example reload_gives_up_garbled :
  reload_gives_up sample_env (redirect "garbled.xml" loaded_state).
Proof. eapply parse_error; reflexivity. Qed.

Example reload_gives_up_monsters :
  reload_gives_up sample_env (redirect "monsters.xml" loaded_state).
Proof. eapply wrong_root; try reflexivity. discriminate. Qed.

(** ** A second environment

    A database with two [version] nodes, an id that occurs twice, an
    equipment item, a hair sprite, an item without id and a text node. *)

Definition shop_xml : string :=
  "<items> <version revision='7'/> <item id='5' type='usable' weight='3' value='40' max-per-slot='10'/> <item type='usable'/> <item id='9' type='hairsprite'/> <item id='6' type='torso' max-per-slot='5' value='100' sprite_id='77'/> <item id='5' type='usable' weight='8' value='45'/> <version revision='12'/> </items>".

Definition shop_nodes : list xmlNode :=
  [ XmlNode "text" [] [];
    XmlNode "version" [("revision", "7")] [];
    XmlNode "item" [("id", "5"); ("type", "usable"); ("weight", "3"); ("value", "40");
                    ("max-per-slot", "10")] [];
    XmlNode "item" [("type", "usable")] [];
    XmlNode "item" [("id", "9"); ("type", "hairsprite")] [];
    XmlNode "item" [("id", "6"); ("type", "torso"); ("max-per-slot", "5");
                    ("value", "100"); ("sprite_id", "77")] [];
    XmlNode "item" [("id", "5"); ("type", "usable"); ("weight", "8"); ("value", "45")] [];
    XmlNode "version" [("revision", "12")] [] ].

Definition shop_root : xmlNode := XmlNode "items" [] shop_nodes.

Definition shop_env : Env :=
  {| loadFile := fun f => if String.eqb f "shop.xml" then Some shop_xml else None;
     exists_ := fun f => String.eqb f "scripts/items/6.lua";
     xmlParseMemory := fun d =>
       if String.eqb d shop_xml then Some (mkDoc (Some shop_root)) else None;
     getPropertyInt := fun n k def =>
       match node_prop n k with Some v => sample_atoi v | None => def end;
     getPropertyStr := fun n k def =>
       match node_prop n k with Some v => v | None => def end;
     atoi := sample_atoi;
     ITEM_UNUSABLE := 0;
     ITEM_USABLE := 1;
     ITEM_EQUIPMENT_ONE_HAND_WEAPON := 2;
     ITEM_EQUIPMENT_TWO_HANDS_WEAPON := 3;
     ITEM_EQUIPMENT_AMMO := 12;
     ITEM_HAIRSPRITE := 13;
     ITEM_RACESPRITE := 14;
     ITEM_UNKNOWN := 15;
     itemTypeFromString := fun s =>
       if String.eqb s "usable" then 1
       else if String.eqb s "torso" then 4
       else if String.eqb s "hairsprite" then 13
       else 15;
     WPNTYPE_NONE := 0;
     weaponTypeFromString := fun _ => 0;
     ItemModifiers := list ((ModifierType + AttributeId) * Z);
     ItemModifiers_new := [];
     setValue := fun k v m => m ++ [(inl k, v)];
     setAttributeValue := fun k v m => m ++ [(inr k, v)];
     Script := string;
     Script_create := fun _ => EmptyString;
     Script_loadFile := fun f _ => f |}.

(** An entry as an earlier load left it. *)
Definition old_entry (id ty : Z) : ItemClass shop_env :=
  mkItemClass shop_env id ty 2 10 4 None (ItemModifiers_new shop_env) id None.

(** A table with items 3 and 5 from an earlier load of version 3. *)
Definition stocked : State shop_env :=
  {| itemClasses := <[3 := old_entry 3 1]> (<[5 := old_entry 5 2]> ∅);
     itemReferenceFile := "shop.xml";
     itemDatabaseVersion := 3;
     log := [] |}.

Lemma stocked_reads : reload_reads shop_env stocked shop_root.
Proof. eapply reads; reflexivity. Qed.

Lemma stocked_ok : items_ok shop_env stocked.
Proof.
  intros id c. unfold getItem, stocked. simpl.
  destruct (decide (id = 3)) as [->|H3].
  - rewrite lookup_insert_eq. intros [= <-]. by split_and!.
  - rewrite lookup_insert_ne; [|done].
    destruct (decide (id = 5)) as [->|H5].
    + rewrite lookup_insert_eq. intros [= <-]. by split_and!.
    + rewrite lookup_insert_ne; [|done]. by rewrite lookup_empty.
Qed.

(** The reload of shop.xml over that table: item 5 has the fields of its
    last node and the type it had; item 6, equipment, has max-per-slot 1, the
    default weight and its script; item 3 is still there; items 0 and 9 are
    not stored. *)
Example reload_shop :
  (mWeight shop_env <$> getItem shop_env (reload shop_env stocked) 5) = Some 8 /\
  (mCost shop_env <$> getItem shop_env (reload shop_env stocked) 5) = Some 45 /\
  (mMaxPerSlot shop_env <$> getItem shop_env (reload shop_env stocked) 5) = Some 1 /\
  (mType shop_env <$> getItem shop_env (reload shop_env stocked) 5) = Some 2 /\
  (mMaxPerSlot shop_env <$> getItem shop_env (reload shop_env stocked) 6) = Some 1 /\
  (mWeight shop_env <$> getItem shop_env (reload shop_env stocked) 6) = Some 1 /\
  (mSpriteID shop_env <$> getItem shop_env (reload shop_env stocked) 6) = Some 77 /\
  (mScript shop_env <$> getItem shop_env (reload shop_env stocked) 6) = Some (Some ("scripts/items/6.lua"%string : Script shop_env)) /\
  (mCost shop_env <$> getItem shop_env (reload shop_env stocked) 3) = Some 10 /\
  getItem shop_env (reload shop_env stocked) 0 = None /\
  getItem shop_env (reload shop_env stocked) 9 = None /\
  GetDatabaseVersion shop_env (reload shop_env stocked) = 12.
Proof. repeat split. Qed.

Lemma reload_keeps_entries_witness :
  getItem shop_env stocked 5 = Some (old_entry 5 2) /\
  exists c',
    getItem shop_env (reload shop_env stocked) 5 = Some c' /\
    mDatabaseID _ c' = mDatabaseID _ (old_entry 5 2) /\
    mType _ c' = mType _ (old_entry 5 2).
Proof.
  assert (H : getItem shop_env stocked 5 = Some (old_entry 5 2)) by reflexivity.
  split; [exact H|].
  exact (reload_keeps_entries shop_env stocked 5 (old_entry 5 2) H).
Defined.

Lemma reload_table_ids_witness :
  reload_reads shop_env stocked shop_root /\
  (is_Some (getItem shop_env (reload shop_env stocked) 6) <->
   is_Some (getItem shop_env stocked 6) \/
   6 ∈ omap (target shop_env) (xmlChildrenNode shop_root)).
Proof.
  split; [exact stocked_reads|].
  exact (reload_table_ids shop_env stocked shop_root 6 stocked_reads).
Defined.

Definition second_five : xmlNode :=
  XmlNode "item" [("id", "5"); ("type", "usable"); ("weight", "8"); ("value", "45")] [].

Lemma reload_last_node_decides_witness :
  reload_reads shop_env stocked shop_root /\
  xmlChildrenNode shop_root
    = take 6 shop_nodes ++ second_five :: drop 7 shop_nodes /\
  target shop_env second_five = Some 5 /\
  Forall (fun n => target shop_env n <> Some 5) (drop 7 shop_nodes) /\
  exists c,
    getItem shop_env (reload shop_env stocked) 5 = Some c /\
    mWeight _ c = node_weight shop_env second_five /\
    mCost _ c = getPropertyInt shop_env second_five "value" 0 /\
    mMaxPerSlot _ c = node_max_per_slot shop_env second_five /\
    mSpriteID _ c = node_sprite shop_env second_five 5 /\
    mScript _ c = node_script shop_env 5 /\
    (ITEM_USABLE shop_env < node_final_type shop_env second_five
       < ITEM_EQUIPMENT_AMMO shop_env -> mMaxPerSlot _ c = 1) /\
    (~ (ITEM_USABLE shop_env < node_final_type shop_env second_five
          < ITEM_EQUIPMENT_AMMO shop_env) ->
     mMaxPerSlot _ c = node_given_max shop_env second_five) /\
    (is_weapon shop_env (node_type shop_env second_five) = true ->
     weaponTypeFromString shop_env
       (getPropertyStr shop_env second_five "weapon-type" EmptyString)
       = WPNTYPE_NONE shop_env ->
     node_final_type shop_env second_five = ITEM_UNUSABLE shop_env /\
     (~ (ITEM_USABLE shop_env < ITEM_UNUSABLE shop_env < ITEM_EQUIPMENT_AMMO shop_env) ->
      mMaxPerSlot _ c = node_given_max shop_env second_five)) /\
    (getItem shop_env stocked 5 = None ->
     Forall (fun n => target shop_env n <> Some 5) (take 6 shop_nodes) ->
     mType _ c = node_type shop_env second_five).
Proof.
  assert (H2 : xmlChildrenNode shop_root
               = take 6 shop_nodes ++ second_five :: drop 7 shop_nodes) by reflexivity.
  assert (H3 : target shop_env second_five = Some 5) by reflexivity.
  assert (H4 : Forall (fun n => target shop_env n <> Some 5) (drop 7 shop_nodes))
    by (repeat constructor; discriminate).
  split; [exact stocked_reads|]. split; [exact H2|]. split; [exact H3|].
  split; [exact H4|].
  exact (reload_last_node_decides shop_env stocked shop_root _ second_five _ 5
           stocked_reads H2 H3 H4).
Defined.

Lemma reload_keeps_table_well_formed_witness :
  items_ok shop_env stocked /\
  items_ok shop_env (reload shop_env stocked) /\
  items_ok shop_env (initialize shop_env "shop.xml" (deinitialize shop_env stocked)).
Proof.
  split; [exact stocked_ok|].
  exact (reload_keeps_table_well_formed shop_env stocked "shop.xml" stocked_ok).
Defined.

Lemma reload_version_witness :
  reload_reads shop_env stocked shop_root /\
  GetDatabaseVersion shop_env (reload shop_env stocked)
    = default (GetDatabaseVersion shop_env stocked)
        (last (omap (node_version shop_env) (xmlChildrenNode shop_root))) /\
  (Forall (fun n => node_name n <> "version"%string) (xmlChildrenNode shop_root) ->
   GetDatabaseVersion shop_env (reload shop_env stocked)
     = GetDatabaseVersion shop_env stocked).
Proof.
  split; [exact stocked_reads|].
  exact (reload_version shop_env stocked shop_root stocked_reads).
Defined.

Lemma reload_logs_count_witness :
  reload_reads shop_env stocked shop_root /\
  last (log _ (reload shop_env stocked))
    = Some (loaded (to_unsigned (Z.of_nat (List.length
                      (omap (target shop_env) (xmlChildrenNode shop_root)))))
                   (itemReferenceFile _ stocked)).
Proof.
  split; [exact stocked_reads|].
  exact (reload_logs_count shop_env stocked shop_root stocked_reads).
Defined.

(** Three nodes are stored and the last version node says 12. *)
Example shop_counts :
  omap (target shop_env) shop_nodes = [5; 6; 5] /\
  last (omap (node_version shop_env) shop_nodes) = Some 12.
Proof. split; reflexivity. Qed.

(** ** A third environment

    Two weapons with max-per-slot 4: the weapon type of item 7 is not known,
    that of item 8 is. *)

Definition armoury_xml : string :=
  "<items><item id='7' type='equip-2hand' weapon-type='banana' max-per-slot='4' lifetime='300000000'/><item id='8' type='equip-2hand' weapon-type='sword' max-per-slot='4'/></items>".

Definition armoury_nodes : list xmlNode :=
  [ XmlNode "item" [("id", "7"); ("type", "equip-2hand"); ("weapon-type", "banana");
                    ("max-per-slot", "4"); ("lifetime", "300000000")] [];
    XmlNode "item" [("id", "8"); ("type", "equip-2hand"); ("weapon-type", "sword");
                    ("max-per-slot", "4")] [] ].

Definition armoury_env : Env :=
  {| loadFile := fun f => if String.eqb f "armoury.xml" then Some armoury_xml else None;
     exists_ := fun _ => false;
     xmlParseMemory := fun d =>
       if String.eqb d armoury_xml
       then Some (mkDoc (Some (XmlNode "items" [] armoury_nodes))) else None;
     getPropertyInt := fun n k def =>
       match node_prop n k with Some v => sample_atoi v | None => def end;
     getPropertyStr := fun n k def =>
       match node_prop n k with Some v => v | None => def end;
     atoi := sample_atoi;
     ITEM_UNUSABLE := 0;
     ITEM_USABLE := 1;
     ITEM_EQUIPMENT_ONE_HAND_WEAPON := 2;
     ITEM_EQUIPMENT_TWO_HANDS_WEAPON := 3;
     ITEM_EQUIPMENT_AMMO := 12;
     ITEM_HAIRSPRITE := 13;
     ITEM_RACESPRITE := 14;
     ITEM_UNKNOWN := 15;
     itemTypeFromString := fun s => if String.eqb s "equip-2hand" then 3 else 15;
     WPNTYPE_NONE := 0;
     weaponTypeFromString := fun s => if String.eqb s "sword" then 2 else 0;
     ItemModifiers := list ((ModifierType + AttributeId) * Z);
     ItemModifiers_new := [];
     setValue := fun k v m => m ++ [(inl k, v)];
     setAttributeValue := fun k v m => m ++ [(inr k, v)];
     Script := string;
     Script_create := fun _ => EmptyString;
     Script_loadFile := fun f _ => f |}.

Definition armoury : State armoury_env :=
  reload armoury_env
    {| itemClasses := ∅; itemReferenceFile := "armoury.xml";
       itemDatabaseVersion := 0; log := [] |}.

(** Item 7 is stored as a two-handed weapon, with the max-per-slot of its
    node and no attack zone: for the rest of the iteration it was an unusable
    item.  Item 8 has max-per-slot 1 and an attack zone.  The lifetime of
    item 7, times ten, does not fit an [int]. *)
Example reload_armoury :
  (mType armoury_env <$> getItem armoury_env armoury 7) = Some 3 /\
  (mMaxPerSlot armoury_env <$> getItem armoury_env armoury 7) = Some 4 /\
  (mAttackZone armoury_env <$> getItem armoury_env armoury 7) = Some None /\
  (mType armoury_env <$> getItem armoury_env armoury 8) = Some 3 /\
  (mMaxPerSlot armoury_env <$> getItem armoury_env armoury 8) = Some 1 /\
  (mAttackZone armoury_env <$> getItem armoury_env armoury 8)
    = Some (Some {| shape := ATTZONESHAPE_CONE; multiTarget := true;
                    range := 32; angle := 90 |}) /\
  (mModifiers armoury_env <$> getItem armoury_env armoury 7)
    = Some ([(inl MOD_WEAPON_TYPE, 0); (inl MOD_WEAPON_RANGE, 0);
             (inl MOD_ELEMENT_TYPE, 0); (inl MOD_LIFETIME, -1294967296);
             (inr BASE_ATTR_PHY_ATK_MIN, 0); (inr BASE_ATTR_PHY_ATK_DELTA, 0);
             (inr BASE_ATTR_HP, 0); (inr BASE_ATTR_PHY_RES, 0);
             (inr CHAR_ATTR_STRENGTH, 0); (inr CHAR_ATTR_AGILITY, 0);
             (inr CHAR_ATTR_DEXTERITY, 0); (inr CHAR_ATTR_VITALITY, 0);
             (inr CHAR_ATTR_INTELLIGENCE, 0); (inr CHAR_ATTR_WILLPOWER, 0)]
            : ItemModifiers armoury_env).
Proof. repeat split. Qed.


End ItemManager.

(** * scripting/lua.cpp

    The Lua 5.1 library is what the file is linked against.  Its C API is
    modelled as the reference manual describes it, for the calls the file
    makes; what a script does when it runs is left to the [Host] below.
    Three things are outside the model: metatables (globals and fields are
    read and written raw), the limit on the size of the interpreter's stack,
    and a failure of [luaL_newstate] to allocate a state. *)

Module LuaScripting.

(** ** Native integers *)

Definition INT_MIN : Z := - 2 ^ 31.
Definition INT_MAX : Z := 2 ^ 31 - 1.

(** Conversion of a [lua_Integer] (a [ptrdiff_t]) to [int]: the low 32 bits,
    signed. *)
Definition to_int (z : Z) : Z := (z + 2 ^ 31) mod 2 ^ 32 - 2 ^ 31.

Lemma to_int_id z : INT_MIN <= z <= INT_MAX -> to_int z = z.
Proof.
  unfold to_int, INT_MIN, INT_MAX. intros Hz.
  rewrite Z.mod_small; lia.
Qed.

Lemma to_int_range z : INT_MIN <= to_int z <= INT_MAX.
Proof.
  unfold to_int, INT_MIN, INT_MAX.
  pose proof (Z.mod_pos_bound (z + 2 ^ 31) (2 ^ 32)). lia.
Qed.

(** The string a [char const *] denotes: the characters before the first
    NUL ([std::string::c_str] handed to C, [std::string(m)]). *)
Fixpoint c_str (s : string) : string :=
  match s with
  | EmptyString => EmptyString
  | String c s' => if Ascii.eqb c "000" then EmptyString else String c (c_str s')
  end.

(** ** The simulation objects a script can be handed *)

(** Kinds of [Thing] (game-server/thing.hpp). *)
Inductive ThingType : Set :=
  | OBJECT_ITEM | OBJECT_ACTOR | OBJECT_NPC
  | OBJECT_MONSTER | OBJECT_CHARACTER | OBJECT_OTHER.

#[global] Instance ThingType_eq_dec : EqDecision ThingType.
Proof. solve_decision. Defined.

Record Thing : Type := mkThing {
  getType : ThingType;
  getPublicID : Z
}.

(** ** Outgoing messages *)

Inductive MessageId : Set := GPMSG_NPC_MESSAGE | GPMSG_NPC_CHOICE.

Inductive MessageField : Type :=
  | writeShort (v : Z)
  | writeString (s : string) (len : Z).

Record MessageOut : Type := mkMessage {
  msg_id : MessageId;
  msg_fields : list MessageField
}.

(** ** The native side

    [things] holds the live simulation objects by address; [sent] what
    [gameHandler->sendTo] was given, oldest first; [log] the log; and
    [open_states] the interpreter states created and not yet closed. *)
Record World : Type := mkWorld {
  things : gmap Z Thing;
  sent : list (Z * MessageOut);
  log : list LogEntry;
  open_states : gset nat
}.

Definition add_log (e : LogEntry) (w : World) : World :=
  {| things := things w; sent := sent w; log := log w ++ [e];
     open_states := open_states w |}.

Definition sendTo (q : Z) (m : MessageOut) (w : World) : World :=
  {| things := things w; sent := sent w ++ [(q, m)]; log := log w;
     open_states := open_states w |}.

(** The simulation destroys the object at [a], or creates one there. *)
Definition destroy (a : Z) (w : World) : World :=
  {| things := delete a (things w); sent := sent w; log := log w;
     open_states := open_states w |}.

Definition create (a : Z) (t : Thing) (w : World) : World :=
  {| things := <[a := t]> (things w); sent := sent w; log := log w;
     open_states := open_states w |}.

(** ** Lua values *)

(** Lua numbers with the conversions of the C API (luaconf.h, lobject.c):
    the cast of [lua_pushinteger], [lua_number2integer], [lua_number2str]
    and [luaO_str2d].  An [int] survives the trip into a number and back. *)
Class LuaNumber (num : Type) : Type := {
  num_of_int : Z -> num;
  num_to_integer : num -> Z;
  num_to_str : num -> string;
  num_of_str : string -> option num;
  num_to_integer_of_int :
    forall v, INT_MIN <= v <= INT_MAX -> num_to_integer (num_of_int v) = v
}.

(** The C functions this file registers. *)
Inductive CFunction : Set := LuaMsg_NpcMessage_fn | LuaMsg_NpcChoice_fn.

(** A function value: one of the C functions above, or a function of the
    interpreter (a compiled chunk, a closure, a library function). *)
Inductive LuaFunction : Set :=
  | CFn (c : CFunction)
  | LuaFn (id : nat).

Inductive LuaType : Set :=
  | LUA_TNONE | LUA_TNIL | LUA_TBOOLEAN | LUA_TLIGHTUSERDATA | LUA_TNUMBER
  | LUA_TSTRING | LUA_TTABLE | LUA_TFUNCTION | LUA_TUSERDATA | LUA_TTHREAD.

Definition lua_typename (t : LuaType) : string :=
  match t with
  | LUA_TNONE => "no value"
  | LUA_TNIL => "nil"
  | LUA_TBOOLEAN => "boolean"
  | LUA_TLIGHTUSERDATA => "userdata"
  | LUA_TNUMBER => "number"
  | LUA_TSTRING => "string"
  | LUA_TTABLE => "table"
  | LUA_TFUNCTION => "function"
  | LUA_TUSERDATA => "userdata"
  | LUA_TTHREAD => "thread"
  end.

(** Status codes of lua.h. *)
Definition LUA_ERRRUN : Z := 2.
Definition LUA_ERRSYNTAX : Z := 3.
Definition LUA_ERRMEM : Z := 4.
Definition LUA_ERRERR : Z := 5.

(** The statuses with which a protected call can fail. *)
Inductive CallError : Set := ErrRun | ErrMem | ErrErr.

Definition status_of (e : CallError) : Z :=
  match e with
  | ErrRun => LUA_ERRRUN
  | ErrMem => LUA_ERRMEM
  | ErrErr => LUA_ERRERR
  end.

Lemma status_of_nonzero e : status_of e <> 0.
Proof. destruct e; discriminate. Qed.

Section Values.

Context {num : Type} {NUM : LuaNumber num}.

Inductive LuaValue : Type :=
  | LNil
  | LBoolean (b : bool)
  | LLightUserData (p : Z)
  | LNumber (n : num)
  | LString (s : string)
  | LTable (r : nat)
  | LFunction (f : LuaFunction)
  | LUserData (r : nat)
  | LThread (r : nat).

Definition type_of (v : LuaValue) : LuaType :=
  match v with
  | LNil => LUA_TNIL
  | LBoolean _ => LUA_TBOOLEAN
  | LLightUserData _ => LUA_TLIGHTUSERDATA
  | LNumber _ => LUA_TNUMBER
  | LString _ => LUA_TSTRING
  | LTable _ => LUA_TTABLE
  | LFunction _ => LUA_TFUNCTION
  | LUserData _ => LUA_TUSERDATA
  | LThread _ => LUA_TTHREAD
  end.

(** What an interpreter state holds besides its stack: the global
    variables, [package.loaded], the string-keyed fields of its tables, and
    whatever else the interpreter keeps ([Priv]: upvalues, other objects).
    A variable or field that is absent reads as nil.  Tables are read and
    written raw: metatables on them are outside this model. *)
Record Store (Priv : Type) : Type := mkStore {
  globals : gmap string LuaValue;
  loaded : gmap string LuaValue;
  tables : gmap nat (gmap string LuaValue);
  priv : Priv
}.

End Values.

Arguments LuaValue num : clear implicits.
Arguments Store num Priv : clear implicits.
Arguments mkStore {num Priv}.
Arguments globals {num Priv}.
Arguments loaded {num Priv}.
Arguments tables {num Priv}.
Arguments priv {num Priv}.

(** ** The interpreter *)

(** How a call made through the interpreter ends when control comes back:
    with the values returned, or with an error value.  Either way the
    interpreter's store and the native side are as the callee left them. *)
Inductive CallResult (num Priv : Type) : Type :=
  | Returned (vals : list (LuaValue num)) (st : Store num Priv) (w : World)
  | Raised (e : CallError) (err : LuaValue num) (st : Store num Priv) (w : World).

Arguments Returned {num Priv}.
Arguments Raised {num Priv}.

(** What [luaL_loadstring] makes of a source text. *)
Inductive LoadResult : Type :=
  | LoadOk (chunk : nat)
  | LoadSyntaxError (msg : string)
  | LoadMemError (msg : string).

(** What this translation unit is linked against: the Lua library and the
    resource manager.  [lua_run f args st w] stands for the whole run of
    the interpreter's function [f] on [args], calls of C functions from
    within it included; the run may also fault or never end. *)
Class Host (num Priv : Type) : Type := {
  lua_run : nat -> list (LuaValue num) -> Store num Priv -> World ->
            Outcome (CallResult num Priv);
  lua_load : string -> LoadResult;
  openlibs : Store num Priv -> Store num Priv;
  priv_init : Priv;
  loadFile : string -> option string
}.

Section Script.

Context {num : Type} {NUM : LuaNumber num} {Priv : Type} {HOST : Host num Priv}.

Abbreviation Value := (LuaValue num) (only parsing).

(** An interpreter state: its identity, its stack (index 1 first, the top
    last) and its store. *)
Record lua_State : Type := mkLua {
  state_id : nat;
  stack : list Value;
  store : Store num Priv
}.

Definition set_stack (L : lua_State) (s : list Value) : lua_State :=
  {| state_id := state_id L; stack := s; store := store L |}.

Definition set_store (L : lua_State) (st : Store num Priv) : lua_State :=
  {| state_id := state_id L; stack := stack L; store := st |}.

(** *** The C API, as far as it is used *)

Definition NULL : Z := 0.

(** The value at an acceptable index: positive from the bottom, negative
    from the top. *)
Definition index2adr (L : lua_State) (idx : Z) : option Value :=
  let n := Z.of_nat (List.length (stack L)) in
  if 0 <? idx then stack L !! Z.to_nat (idx - 1)
  else if (idx <? 0) && (0 <=? n + idx) then stack L !! Z.to_nat (n + idx)
  else None.

Definition lua_type (L : lua_State) (idx : Z) : LuaType :=
  match index2adr L idx with
  | Some v => type_of v
  | None => LUA_TNONE
  end.

Definition lua_islightuserdata (L : lua_State) (idx : Z) : bool :=
  match index2adr L idx with
  | Some (LLightUserData _) => true
  | _ => false
  end.

Definition lua_touserdata (L : lua_State) (idx : Z) : Z :=
  match index2adr L idx with
  | Some (LLightUserData p) => p
  | _ => NULL
  end.

Definition lua_isnumber (L : lua_State) (idx : Z) : bool :=
  match index2adr L idx with
  | Some (LNumber _) => true
  | Some (LString s) => bool_decide (is_Some (num_of_str s))
  | _ => false
  end.

Definition lua_tointeger (L : lua_State) (idx : Z) : Z :=
  match index2adr L idx with
  | Some (LNumber n) => num_to_integer n
  | Some (LString s) =>
      match num_of_str s with
      | Some n => num_to_integer n
      | None => 0
      end
  | _ => 0
  end.

Definition set_index (L : lua_State) (idx : Z) (v : Value) : lua_State :=
  let n := Z.of_nat (List.length (stack L)) in
  if 0 <? idx then set_stack L (<[Z.to_nat (idx - 1) := v]> (stack L))
  else if (idx <? 0) && (0 <=? n + idx) then
    set_stack L (<[Z.to_nat (n + idx) := v]> (stack L))
  else L.

(** [lua_tolstring]: the string, or null; a number is replaced in the stack
    by the string it converts to. *)
Definition lua_tolstring (L : lua_State) (idx : Z) : option string * lua_State :=
  match index2adr L idx with
  | Some (LString s) => (Some s, L)
  | Some (LNumber n) => (Some (num_to_str n), set_index L idx (LString (num_to_str n)))
  | _ => (None, L)
  end.

Definition lua_tostring (L : lua_State) (idx : Z) : option string * lua_State :=
  lua_tolstring L idx.

Definition lua_push (L : lua_State) (v : Value) : lua_State :=
  set_stack L (stack L ++ [v]).

Definition lua_pushinteger (L : lua_State) (v : Z) : lua_State :=
  lua_push L (LNumber (num_of_int v)).

Definition lua_pushlightuserdata (L : lua_State) (p : Z) : lua_State :=
  lua_push L (LLightUserData p).

Definition lua_getglobal (L : lua_State) (name : string) : lua_State :=
  lua_push L (default LNil (globals (store L) !! name)).

Definition lua_pop (L : lua_State) (n : nat) : lua_State :=
  set_stack L (take (List.length (stack L) - n) (stack L)).

(** The results of a call cut or padded with nil to [nresults] values;
    all of them for [LUA_MULTRET]. *)
Definition adjust_results (nresults : Z) (vals : list Value) : list Value :=
  if nresults <? 0 then vals
  else take (Z.to_nat nresults) (vals ++ replicate (Z.to_nat nresults) LNil).

(** *** Native callbacks *)

(** [static NPC *getNPC(lua_State *s, int p)]: the NPC, or null.  The
    address taken from the script is dereferenced as it is. *)
Definition getNPC (w : World) (s : lua_State) (p : Z) : Outcome (option Z) :=
  if negb (lua_islightuserdata s p) then Done None
  else
    let t := lua_touserdata s p in
    match things w !! t with
    | None => Undefined
    | Some th =>
        if decide (getType th <> OBJECT_NPC) then Done None else Done (Some t)
    end.

(** [static Character *getCharacter(lua_State *s, int p)] *)
Definition getCharacter (w : World) (s : lua_State) (p : Z) : Outcome (option Z) :=
  if negb (lua_islightuserdata s p) then Done None
  else
    let t := lua_touserdata s p in
    match things w !! t with
    | None => Undefined
    | Some th =>
        if decide (getType th <> OBJECT_CHARACTER) then Done None else Done (Some t)
    end.

(** [p->getPublicID()] *)
Definition publicID_of (w : World) (p : Z) : Outcome Z :=
  match things w !! p with
  | Some th => Done (getPublicID th)
  | None => Undefined
  end.

(** [static int LuaMsg_NpcMessage(lua_State *s)]: the number of results
    handed to the script, the state and the native side afterwards. *)
Definition LuaMsg_NpcMessage (s : lua_State) (w : World)
  : Outcome (Z * lua_State * World) :=
  p ← getNPC w s 1;
  q ← getCharacter w s 2;
  let '(m, s1) := lua_tolstring s 3 in
  match p, q, m with
  | Some p, Some q, Some m =>
      let l := Z.of_nat (String.length m) in
      id ← publicID_of w p;
      let msg := {| msg_id := GPMSG_NPC_MESSAGE;
                    msg_fields := [writeShort id; writeString (c_str m) l] |} in
      Done (0, s1, sendTo q msg w)
  | _, _, _ =>
      Done (0, s1,
            add_log (LOG_WARN [SText "LuaMsg_NpcMessage called with incorrect parameters."]) w)
  end.

(** [static int LuaMsg_NpcChoice(lua_State *s)] *)
Definition LuaMsg_NpcChoice (s : lua_State) (w : World)
  : Outcome (Z * lua_State * World) :=
  p ← getNPC w s 1;
  q ← getCharacter w s 2;
  let '(m, s1) := lua_tolstring s 3 in
  match p, q, m with
  | Some p, Some q, Some m =>
      let l := Z.of_nat (String.length m) in
      id ← publicID_of w p;
      let msg := {| msg_id := GPMSG_NPC_CHOICE;
                    msg_fields := [writeShort id; writeString (c_str m) l] |} in
      Done (0, s1, sendTo q msg w)
  | _, _, _ =>
      Done (0, s1,
            add_log (LOG_WARN [SText "LuaMsg_NpcChoice called with incorrect parameters."]) w)
  end.

Definition c_function (c : CFunction)
  : lua_State -> World -> Outcome (Z * lua_State * World) :=
  match c with
  | LuaMsg_NpcMessage_fn => LuaMsg_NpcMessage
  | LuaMsg_NpcChoice_fn => LuaMsg_NpcChoice
  end.

(** [static luaL_reg const callbacks[]] *)
Definition callbacks : list (string * CFunction) :=
  [ ("msg_npc_message"%string, LuaMsg_NpcMessage_fn);
    ("msg_npc_choice"%string, LuaMsg_NpcChoice_fn) ].

(** *** Calls *)

(** Calling a function value on arguments.  A C function runs on a stack
    that holds the arguments and hands back the topmost values, as many as
    it returns. *)
Definition call_function (id : nat) (f : LuaFunction) (args : list Value)
    (st : Store num Priv) (w : World) : Outcome (CallResult num Priv) :=
  match f with
  | LuaFn k => lua_run k args st w
  | CFn c =>
      '(n, s', w') ← c_function c {| state_id := id; stack := args; store := st |} w;
      Done (Returned (drop (List.length (stack s') - Z.to_nat n) (stack s')) (store s') w')
  end.

(** Calling any value: what is not a function raises a run-time error. *)
Definition call_value (id : nat) (fv : Value) (args : list Value)
    (st : Store num Priv) (w : World) : Outcome (CallResult num Priv) :=
  match fv with
  | LFunction f => call_function id f args st w
  | _ =>
      Done (Raised ErrRun
              (LString ("attempt to call a " +:+ lua_typename (type_of fv) +:+ " value"))
              st w)
  end.

(** [lua_pcall(L, nargs, nresults, 0)]: the function and its [nargs]
    arguments are taken off the stack; on status 0 the results are pushed,
    otherwise the error value.  Fewer than [nargs + 1] values on the stack
    is a misuse of the API. *)
Definition lua_pcall (L : lua_State) (nargs nresults : Z) (w : World)
  : Outcome (Z * lua_State * World) :=
  let n := List.length (stack L) in
  if (nargs <? 0) || (Z.of_nat n <? nargs + 1) then Undefined
  else
    let base := (n - Z.to_nat nargs - 1)%nat in
    match drop base (stack L) with
    | fv :: args =>
        r ← call_value (state_id L) fv args (store L) w;
        match r with
        | Returned vals st' w' =>
            Done (0, {| state_id := state_id L;
                        stack := take base (stack L) ++ adjust_results nresults vals;
                        store := st' |}, w')
        | Raised e err st' w' =>
            Done (status_of e, {| state_id := state_id L;
                                  stack := take base (stack L) ++ [err];
                                  store := st' |}, w')
        end
    | [] => Undefined
    end.

(** [luaL_openlibs] *)
Definition luaL_openlibs (L : lua_State) : lua_State :=
  set_store L (openlibs (store L)).

Definition table_fields (st : Store num Priv) (r : nat) : gmap string Value :=
  default ∅ (tables st !! r).

Definition set_field (r : nat) (k : string) (v : Value) (st : Store num Priv)
  : Store num Priv :=
  {| globals := globals st; loaded := loaded st;
     tables := <[r := <[k := v]> (table_fields st r)]> (tables st);
     priv := priv st |}.

Definition set_fields (r : nat) (l : list (string * CFunction)) (st : Store num Priv)
  : Store num Priv :=
  foldl (fun a e => set_field r (fst e) (LFunction (CFn (snd e))) a) st l.

(** [luaL_register(L, libname, l)]: the functions of [l] become fields of
    the table that is [package.loaded[libname]] or, failing that, the global
    [libname]; when neither is there a new table is made and stored under
    both.  The table is left on the stack.  A global of that name that is
    not a table is an error, raised here outside any protected call. *)
Definition luaL_register (L : lua_State) (libname : string)
    (l : list (string * CFunction)) : Outcome lua_State :=
  let st := store L in
  match loaded st !! libname with
  | Some (LTable r) =>
      Done {| state_id := state_id L; stack := stack L ++ [LTable r];
              store := set_fields r l st |}
  | _ =>
      match default LNil (globals st !! libname) with
      | LNil =>
          let r := fresh (dom (tables st)) in
          let st1 := {| globals := <[libname := LTable r]> (globals st);
                        loaded := <[libname := LTable r]> (loaded st);
                        tables := <[r := ∅]> (tables st);
                        priv := priv st |} in
          Done {| state_id := state_id L; stack := stack L ++ [LTable r];
                  store := set_fields r l st1 |}
      | LTable r =>
          let st1 := {| globals := globals st;
                        loaded := <[libname := LTable r]> (loaded st);
                        tables := tables st;
                        priv := priv st |} in
          Done {| state_id := state_id L; stack := stack L ++ [LTable r];
                  store := set_fields r l st1 |}
      | _ => Panic
      end
  end.

(** [luaL_newstate], [luaL_loadstring] and [lua_close]. *)
Definition luaL_newstate (w : World) : lua_State * World :=
  let id := fresh (open_states w) in
  ({| state_id := id; stack := [];
      store := {| globals := ∅; loaded := ∅; tables := ∅; priv := priv_init |} |},
   {| things := things w; sent := sent w; log := log w;
      open_states := {[id]} ∪ open_states w |}).

Definition luaL_loadstring (L : lua_State) (buffer : string) : Z * lua_State :=
  match lua_load (c_str buffer) with
  | LoadOk k => (0, lua_push L (LFunction (LuaFn k)))
  | LoadSyntaxError msg => (LUA_ERRSYNTAX, lua_push L (LString msg))
  | LoadMemError msg => (LUA_ERRMEM, lua_push L (LString msg))
  end.

Definition lua_close (L : lua_State) (w : World) : Outcome World :=
  if decide (state_id L ∈ open_states w) then
    Done {| things := things w; sent := sent w; log := log w;
            open_states := open_states w ∖ {[state_id L]} |}
  else Undefined.

(** *** class LuaScript *)

Record LuaScript : Type := mkScript {
  mState : lua_State;
  nbArgs : Z
}.

(** [LuaScript::LuaScript(lua_State *s)] *)
Definition LuaScript_new (s : lua_State) (w : World) : Outcome (LuaScript * World) :=
  let L0 := luaL_openlibs s in
  '(res, L1, w1) ← lua_pcall L0 0 0 w;
  if negb (res =? 0) then
    let '(m, L2) := lua_tostring L1 1 in
    Done ({| mState := lua_pop L2 1; nbArgs := -1 |},
          add_log (LOG_ERROR [SText "Failure while initializing Lua script: "; SCStr m]) w1)
  else
    L2 ← luaL_register L1 "tmw" callbacks;
    Done ({| mState := lua_pop L2 1; nbArgs := -1 |}, w1).

(** [LuaScript::~LuaScript()] *)
Definition LuaScript_delete (sc : LuaScript) (w : World) : Outcome World :=
  lua_close (mState sc) w.

(** [++nbArgs] on an [int]. *)
Definition incr (n : Z) : Outcome Z :=
  if n <? INT_MAX then Done (n + 1) else Undefined.

(** [void LuaScript::prepare(std::string const &name)] *)
Definition prepare (name : string) (sc : LuaScript) : Outcome LuaScript :=
  _ ← assert (nbArgs sc =? -1);
  Done {| mState := lua_getglobal (mState sc) (c_str name); nbArgs := 0 |}.

(** [void LuaScript::push(int v)] *)
Definition push_int (v : Z) (sc : LuaScript) : Outcome LuaScript :=
  _ ← assert (0 <=? nbArgs sc);
  n ← incr (nbArgs sc);
  Done {| mState := lua_pushinteger (mState sc) v; nbArgs := n |}.

(** [void LuaScript::push(Thing *v)] *)
Definition push_Thing (v : Z) (sc : LuaScript) : Outcome LuaScript :=
  _ ← assert (0 <=? nbArgs sc);
  n ← incr (nbArgs sc);
  Done {| mState := lua_pushlightuserdata (mState sc) v; nbArgs := n |}.

(** [int LuaScript::execute()] *)
Definition execute (sc : LuaScript) (w : World) : Outcome (Z * LuaScript * World) :=
  _ ← assert (0 <=? nbArgs sc);
  '(res, L1, w1) ← lua_pcall (mState sc) (nbArgs sc) 1 w;
  if negb (res =? 0) || negb (lua_isnumber L1 1) then
    let '(s, L2) := lua_tostring L1 1 in
    Done (0,
          {| mState := lua_pop L2 1; nbArgs := -1 |},
          add_log (LOG_WARN [SText "Failure while calling Lua function: error=";
                             SNum res; SText ", type=";
                             SText (lua_typename (lua_type L2 1));
                             SText ", message="; SCStr (Some (default EmptyString s))]) w1)
  else
    Done (to_int (lua_tointeger L1 1),
          {| mState := lua_pop L1 1; nbArgs := -1 |}, w1).

(** [static Script *loadScript(std::string const &filename)]: the script,
    or null. *)
Definition loadScript (filename : string) (w : World)
  : Outcome (option LuaScript * World) :=
  match loadFile filename with
  | None => Done (None, w)
  | Some buffer =>
      let '(s, w1) := luaL_newstate w in
      let '(res, s1) := luaL_loadstring s buffer in
      if res =? 0 then
        let w2 := add_log (LOG_INFO [SText "Successfully loaded script "; SText filename]) w1 in
        '(sc, w3) ← LuaScript_new s1 w2;
        Done (Some sc, w3)
      else
        let w2 :=
          if res =? LUA_ERRSYNTAX then
            add_log (LOG_ERROR [SText "Syntax error while loading script "; SText filename]) w1
          else w1 in
        w3 ← lua_close s1 w2;
        Done (None, w3)
  end.

(** *** The calling convention *)

(** The arguments a caller can push. *)
Inductive Argument : Type :=
  | ArgInt (v : Z)
  | ArgThing (v : Z).

Definition push (a : Argument) (sc : LuaScript) : Outcome LuaScript :=
  match a with
  | ArgInt v => push_int v sc
  | ArgThing v => push_Thing v sc
  end.

(** The value an argument is in the interpreter. *)
Definition value_of (a : Argument) : Value :=
  match a with
  | ArgInt v => LNumber (num_of_int v)
  | ArgThing v => LLightUserData v
  end.

Fixpoint push_all (args : list Argument) (sc : LuaScript) : Outcome LuaScript :=
  match args with
  | [] => Done sc
  | a :: args' => sc' ← push a sc; push_all args' sc'
  end.

(** [prepare(name)], [push(arg)]*, [execute()]. *)
Definition call_script (name : string) (args : list Argument)
    (sc : LuaScript) (w : World) : Outcome (Z * LuaScript * World) :=
  sc1 ← prepare name sc;
  sc2 ← push_all args sc1;
  execute sc2 w.

(** *** States of the call context *)

(** No call prepared: the counter is -1 and the stack is empty. *)
Definition idle (sc : LuaScript) : Prop :=
  nbArgs sc = -1 /\ stack (mState sc) = [].

(** A call in progress: the function slot and the arguments pushed so far. *)
Definition preparing (sc : LuaScript) (fv : Value) (args : list Value) : Prop :=
  stack (mState sc) = fv :: args /\ nbArgs sc = Z.of_nat (List.length args).

(** The script object between calls, on interpreter state [id] with store
    [st]. *)
Definition at_rest (id : nat) (st : Store num Priv) : LuaScript :=
  {| mState := {| state_id := id; stack := []; store := st |}; nbArgs := -1 |}.

(** *** Reading the single value a call leaves *)

Definition is_numeric (v : Value) : bool :=
  match v with
  | LNumber _ => true
  | LString s => bool_decide (is_Some (num_of_str s))
  | _ => false
  end.

Definition integer_of (v : Value) : Z :=
  match v with
  | LNumber n => num_to_integer n
  | LString s => match num_of_str s with Some n => num_to_integer n | None => 0 end
  | _ => 0
  end.

Definition text_of (v : Value) : option string :=
  match v with
  | LString s => Some s
  | LNumber n => Some (num_to_str n)
  | _ => None
  end.

(** The type of a value once [lua_tostring] has been applied to its slot. *)
Definition type_as_text (v : Value) : LuaType :=
  match v with
  | LNumber _ => LUA_TSTRING
  | _ => type_of v
  end.

(** The warning execute() logs for status [res] and the value [v] left on
    the stack. *)
Definition call_failure (res : Z) (v : Value) : LogEntry :=
  LOG_WARN [SText "Failure while calling Lua function: error="; SNum res;
            SText ", type="; SText (lua_typename (type_as_text v));
            SText ", message="; SCStr (Some (default EmptyString (text_of v)))].

(** The error entry the constructor logs for the error value [v]. *)
Definition init_failure (v : Value) : LogEntry :=
  LOG_ERROR [SText "Failure while initializing Lua script: "; SCStr (text_of v)].

Section OneValue.

Variables (id : nat) (v : Value) (st : Store num Priv).

Let L1 : lua_State := {| state_id := id; stack := [v]; store := st |}.

Lemma one_isnumber : lua_isnumber L1 1 = is_numeric v.
Proof. unfold lua_isnumber, index2adr. simpl. by destruct v. Qed.

Lemma one_tointeger : lua_tointeger L1 1 = integer_of v.
Proof. unfold lua_tointeger, index2adr. simpl. by destruct v. Qed.

Lemma one_tostring_text : fst (lua_tostring L1 1) = text_of v.
Proof. unfold lua_tostring, lua_tolstring, index2adr. simpl. by destruct v. Qed.

Lemma one_tostring_type : lua_type (snd (lua_tostring L1 1)) 1 = type_as_text v.
Proof.
  unfold lua_tostring, lua_tolstring, lua_type, index2adr. simpl. by destruct v.
Qed.

Lemma one_tostring_pop :
  lua_pop (snd (lua_tostring L1 1)) 1 = {| state_id := id; stack := []; store := st |}.
Proof.
  unfold lua_tostring, lua_tolstring, lua_pop, index2adr. simpl. by destruct v.
Qed.

Lemma one_pop : lua_pop L1 1 = {| state_id := id; stack := []; store := st |}.
Proof. reflexivity. Qed.

End OneValue.

Lemma adjust_results_one (vals : list Value) :
  adjust_results 1 vals = [default LNil (head vals)].
Proof. unfold adjust_results. simpl. by destruct vals. Qed.

Lemma adjust_results_zero (vals : list Value) : adjust_results 0 vals = [].
Proof. reflexivity. Qed.

(** *** The protected call on a prepared stack *)

Lemma lua_pcall_prepared (L : lua_State) (fv : Value) (args : list Value)
    (nresults : Z) (w : World) :
  stack L = fv :: args ->
  lua_pcall L (Z.of_nat (List.length args)) nresults w =
    r ← call_value (state_id L) fv args (store L) w;
    match r with
    | Returned vals st' w' =>
        Done (0, {| state_id := state_id L; stack := adjust_results nresults vals;
                    store := st' |}, w')
    | Raised e err st' w' =>
        Done (status_of e, {| state_id := state_id L; stack := [err]; store := st' |}, w')
    end.
Proof.
  intros Hs. unfold lua_pcall. rewrite Hs. simpl List.length.
  replace (Z.of_nat (List.length args) <? 0) with false
    by (symmetry; apply Z.ltb_ge; lia).
  replace (Z.of_nat (S (List.length args)) <? Z.of_nat (List.length args) + 1)
    with false by (symmetry; apply Z.ltb_ge; lia).
  simpl orb. cbv iota.
  rewrite Nat2Z.id.
  replace (S (List.length args) - List.length args - 1)%nat with 0%nat by lia.
  reflexivity.
Qed.

(** What execute() does with the outcome of the call. *)
Definition conclude (id : nat) (r : CallResult num Priv) : Z * LuaScript * World :=
  match r with
  | Returned vals st' w' =>
      let v := default LNil (head vals) in
      if is_numeric v then (to_int (integer_of v), at_rest id st', w')
      else (0, at_rest id st', add_log (call_failure 0 v) w')
  | Raised e err st' w' =>
      (0, at_rest id st', add_log (call_failure (status_of e) err) w')
  end.

Lemma execute_preparing (sc : LuaScript) (fv : Value) (args : list Value) (w : World) :
  preparing sc fv args ->
  execute sc w =
    r ← call_value (state_id (mState sc)) fv args (store (mState sc)) w;
    Done (conclude (state_id (mState sc)) r).
Proof.
  intros [Hs Hn]. unfold execute. rewrite Hn.
  replace (0 <=? Z.of_nat (List.length args)) with true
    by (symmetry; apply Z.leb_le; lia).
  simpl. rewrite (lua_pcall_prepared _ _ _ _ _ Hs).
  destruct (call_value _ fv args _ w) as [[vals st' w'|e err st' w']| | | |];
    simpl; try reflexivity.
  - rewrite adjust_results_one, one_isnumber.
    destruct (is_numeric _) eqn:Hnum; simpl.
    + by rewrite one_tointeger, one_pop.
    + pose proof (one_tostring_text (state_id (mState sc)) (default LNil (head vals)) st') as Ht.
      pose proof (one_tostring_type (state_id (mState sc)) (default LNil (head vals)) st') as Hy.
      pose proof (one_tostring_pop (state_id (mState sc)) (default LNil (head vals)) st') as Hp.
      destruct (lua_tostring _ 1) as [s L2]. simpl in Ht, Hy, Hp.
      by rewrite Ht, Hy, Hp.
  - destruct (status_of e =? 0) eqn:He.
    { apply Z.eqb_eq in He. by destruct (status_of_nonzero e). }
    simpl.
    pose proof (one_tostring_text (state_id (mState sc)) err st') as Ht.
    pose proof (one_tostring_type (state_id (mState sc)) err st') as Hy.
    pose proof (one_tostring_pop (state_id (mState sc)) err st') as Hp.
    destruct (lua_tostring _ 1) as [s L2]. simpl in Ht, Hy, Hp.
    by rewrite Ht, Hy, Hp.
Qed.

(** *** prepare and push *)

Lemma prepare_idle (name : string) (sc : LuaScript) :
  idle sc ->
  exists sc1,
    prepare name sc = Done sc1 /\
    preparing sc1 (default LNil (globals (store (mState sc)) !! c_str name)) [] /\
    state_id (mState sc1) = state_id (mState sc) /\
    store (mState sc1) = store (mState sc).
Proof.
  intros [Hn Hs]. unfold prepare. rewrite Hn. simpl.
  eexists. split; [reflexivity|]. unfold preparing. simpl. by rewrite Hs.
Qed.

Lemma push_preparing (a : Argument) (sc : LuaScript) (fv : Value) (args : list Value) :
  preparing sc fv args ->
  Z.of_nat (List.length args) < INT_MAX ->
  exists sc1,
    push a sc = Done sc1 /\
    preparing sc1 fv (args ++ [value_of a]) /\
    state_id (mState sc1) = state_id (mState sc) /\
    store (mState sc1) = store (mState sc).
Proof.
  intros [Hs Hn] Hlt.
  assert (Hge : (0 <=? nbArgs sc) = true) by (apply Z.leb_le; lia).
  assert (Hin : incr (nbArgs sc) = Done (nbArgs sc + 1)).
  { unfold incr. replace (nbArgs sc <? INT_MAX) with true; [done|].
    symmetry. apply Z.ltb_lt. lia. }
  destruct a as [v|v]; simpl; unfold push_int, push_Thing;
    rewrite Hge; simpl; rewrite Hin; simpl;
    (eexists; split; [reflexivity|]); unfold preparing; simpl;
    rewrite Hs, length_app, Hn; simpl; (split_and!; [done|lia|done|done]).
Qed.

Lemma push_all_preparing (more : list Argument) :
  forall (sc : LuaScript) (fv : Value) (args : list Value),
  preparing sc fv args ->
  Z.of_nat (List.length args + List.length more) <= INT_MAX ->
  exists sc1,
    push_all more sc = Done sc1 /\
    preparing sc1 fv (args ++ map value_of more) /\
    state_id (mState sc1) = state_id (mState sc) /\
    store (mState sc1) = store (mState sc).
Proof.
  induction more as [|a more IH]; intros sc fv args Hp Hlen.
  - exists sc. simpl. by rewrite app_nil_r.
  - simpl in Hlen.
    destruct (push_preparing a sc fv args Hp) as (sc1 & Hpush & Hp1 & Hid & Hst); [lia|].
    destruct (IH sc1 fv (args ++ [value_of a]) Hp1) as (sc2 & Hall & Hp2 & Hid2 & Hst2).
    { rewrite length_app. simpl. lia. }
    exists sc2. simpl. rewrite Hpush. simpl. rewrite Hall.
    rewrite <- app_assoc in Hp2. simpl in Hp2.
    split_and!; [done|done|congruence|congruence].
Qed.

(** The whole cycle from an idle script: the value of the global is called
    on the arguments in the order they were pushed. *)
Lemma call_script_idle (name : string) (args : list Argument) (sc : LuaScript) (w : World) :
  idle sc ->
  Z.of_nat (List.length args) <= INT_MAX ->
  call_script name args sc w =
    r ← call_value (state_id (mState sc))
          (default LNil (globals (store (mState sc)) !! c_str name))
          (map value_of args) (store (mState sc)) w;
    Done (conclude (state_id (mState sc)) r).
Proof.
  intros Hi Hlen. unfold call_script.
  destruct (prepare_idle name sc Hi) as (sc1 & -> & Hp1 & Hid1 & Hst1). simpl.
  destruct (push_all_preparing args sc1 _ [] Hp1) as (sc2 & -> & Hp2 & Hid2 & Hst2);
    [simpl; lia|]. simpl in Hp2. simpl.
  rewrite (execute_preparing sc2 _ _ w Hp2), Hid2, Hst2, Hid1, Hst1. reflexivity.
Qed.

Lemma conclude_at_rest (id : nat) (r : CallResult num Priv) :
  exists st', (conclude id r).1.2 = at_rest id st'.
Proof.
  destruct r as [vals st' w'|e err st' w']; simpl; [|eauto].
  destruct (is_numeric _); eauto.
Qed.

(** *** Sequences of calls *)

(** The calls a user of a script can make, and a sequence of them run from
    a script and a native side. *)
Inductive ScriptCall : Type :=
  | Prepare (name : string)
  | Push (a : Argument)
  | Execute.

Definition do_call (c : ScriptCall) (sc : LuaScript) (w : World)
  : Outcome (LuaScript * World) :=
  match c with
  | Prepare name => sc' ← prepare name sc; Done (sc', w)
  | Push a => sc' ← push a sc; Done (sc', w)
  | Execute => '(_, sc', w') ← execute sc w; Done (sc', w')
  end.

Fixpoint run_calls (cs : list ScriptCall) (sc : LuaScript) (w : World)
  : Outcome (LuaScript * World) :=
  match cs with
  | [] => Done (sc, w)
  | c :: cs' => '(sc', w') ← do_call c sc w; run_calls cs' sc' w'
  end.

(** The two states of the call context. *)
Definition context_ok (sc : LuaScript) : Prop :=
  idle sc \/ exists fv args, preparing sc fv args.

Lemma execute_Done_reset (sc : LuaScript) (w : World) n sc' w' :
  execute sc w = Done (n, sc', w') -> nbArgs sc' = -1.
Proof.
  unfold execute.
  destruct (assert _); simpl; try discriminate.
  destruct (lua_pcall _ _ _ _) as [[[res L1] w1]| | | |]; simpl; try discriminate.
  destruct (negb (res =? 0) || negb (lua_isnumber L1 1)).
  - destruct (lua_tostring L1 1). by intros [= _ <- _].
  - by intros [= _ <- _].
Qed.

Lemma do_call_context (c : ScriptCall) (sc : LuaScript) (w : World) sc' w' :
  context_ok sc ->
  do_call c sc w = Done (sc', w') ->
  context_ok sc' /\ (c = Execute -> idle sc').
Proof.
  intros Hok Hc. destruct c as [name|a|]; simpl in Hc.
  - (* prepare: only from the idle state *)
    split; [|done]. destruct Hok as [Hi|(fv & args & Hs & Hn)].
    + destruct (prepare_idle name sc Hi) as (sc1 & Hp & Hpre & _).
      rewrite Hp in Hc. simpl in Hc. injection Hc as <- <-. right. eauto.
    + unfold prepare in Hc.
      replace (nbArgs sc =? -1) with false in Hc by (symmetry; apply Z.eqb_neq; lia).
      discriminate.
  - (* push: only with a call in progress *)
    split; [|done]. destruct Hok as [[Hn Hs]|(fv & args & Hpre)].
    + assert (Hlt : (0 <=? nbArgs sc) = false) by (apply Z.leb_gt; lia).
      destruct a; simpl in Hc; unfold push_int, push_Thing in Hc;
        rewrite Hlt in Hc; discriminate.
    + destruct (Z_lt_dec (Z.of_nat (List.length args)) INT_MAX) as [Hlt|Hge].
      * destruct (push_preparing a sc fv args Hpre Hlt) as (sc1 & Hp & Hpre1 & _).
        rewrite Hp in Hc. simpl in Hc. injection Hc as <- <-. right. eauto.
      * destruct Hpre as [Hs Hn].
        assert (Hle : (0 <=? nbArgs sc) = true) by (apply Z.leb_le; lia).
        assert (Hin : incr (nbArgs sc) = Undefined).
        { unfold incr. replace (nbArgs sc <? INT_MAX) with false; [done|].
          symmetry. apply Z.ltb_ge. lia. }
        destruct a; simpl in Hc; unfold push_int, push_Thing in Hc;
          rewrite Hle in Hc; simpl in Hc; rewrite Hin in Hc; discriminate.
  - (* execute: only with a call in progress, and back to idle *)
    destruct Hok as [[Hn Hs]|(fv & args & Hpre)].
    + unfold execute in Hc.
      replace (0 <=? nbArgs sc) with false in Hc by (symmetry; apply Z.leb_gt; lia).
      discriminate.
    + rewrite (execute_preparing sc fv args w Hpre) in Hc.
      destruct (call_value _ fv args _ w) as [r| | | |]; simpl in Hc; try discriminate.
      destruct (conclude_at_rest (state_id (mState sc)) r) as [st' Hr].
      destruct (conclude _ r) as [[n sc1] w1]. simpl in Hr, Hc.
      inversion Hc; subst.
      assert (idle (at_rest (state_id (mState sc)) st')) by (by split).
      split; [by left|done].
Qed.

Lemma run_calls_context (cs : list ScriptCall) :
  forall (sc : LuaScript) (w : World) sc' w',
  context_ok sc ->
  run_calls cs sc w = Done (sc', w') ->
  context_ok sc'.
Proof.
  induction cs as [|c cs IH]; intros sc w sc' w' Hok Hr; simpl in Hr.
  - by injection Hr as <- <-.
  - destruct (do_call c sc w) as [[sc1 w1]| | | |] eqn:Hc; simpl in Hr; try discriminate.
    destruct (do_call_context c sc w sc1 w1 Hok Hc) as [Hok1 _]. eauto.
Qed.

Lemma run_calls_app (cs cs' : list ScriptCall) (sc : LuaScript) (w : World) :
  run_calls (cs ++ cs') sc w = '(sc1, w1) ← run_calls cs sc w; run_calls cs' sc1 w1.
Proof.
  revert sc w. induction cs as [|c cs IH]; intros sc w; simpl; [done|].
  destruct (do_call c sc w) as [[sc1 w1]| | | |]; simpl; auto.
Qed.

Lemma run_calls_one (c : ScriptCall) (sc : LuaScript) (w : World) :
  run_calls [c] sc w = do_call c sc w.
Proof. simpl. by destruct (do_call c sc w) as [[sc1 w1]| | | |]. Qed.

(** C2.  execute() leaves the call context with no call prepared
    ([nbArgs] = -1): it returns whenever the protected call hands control
    back, be it with a number, with a value that is not a number, or with an
    error, and then the context is reset; whenever it returns at all the
    context is reset; and so it is after any sequence of prepare, push and
    execute calls on an idle script that ends with an execute. *)
Theorem execute_resets_call_context
    (sc : LuaScript) (w : World) (fv : Value) (args : list Value)
    (r : CallResult num Priv) :
  preparing sc fv args ->
  call_value (state_id (mState sc)) fv args (store (mState sc)) w = Done r ->
  (exists n sc' w',
      execute sc w = Done (n, sc', w') /\ nbArgs sc' = -1 /\ idle sc') /\
  (forall (any : LuaScript) (v : World) n sc' w',
      execute any v = Done (n, sc', w') -> nbArgs sc' = -1) /\
  (forall (cs : list ScriptCall) (sc0 : LuaScript) (v : World) sc' w',
      idle sc0 ->
      run_calls (cs ++ [Execute]) sc0 v = Done (sc', w') ->
      nbArgs sc' = -1 /\ idle sc').
Proof.
  intros Hp Hr. split_and!.
  - rewrite (execute_preparing sc fv args w Hp), Hr. simpl.
    destruct (conclude_at_rest (state_id (mState sc)) r) as [st' Hc].
    destruct (conclude _ r) as [[n sc'] w'] eqn:Heq. simpl in Hc. subst sc'.
    exists n, (at_rest (state_id (mState sc)) st'), w'. by split_and!.
  - intros any v n sc' w'. apply execute_Done_reset.
  - intros cs sc0 v sc' w' Hi Hrun. rewrite run_calls_app in Hrun.
    destruct (run_calls cs sc0 v) as [[sc1 w1]| | | |] eqn:Hcs;
      try discriminate.
    assert (Hok : context_ok sc1) by (eapply run_calls_context; eauto; by left).
    change (run_calls [Execute] sc1 w1 = Done (sc', w')) in Hrun.
    rewrite run_calls_one in Hrun.
    destruct (do_call_context Execute sc1 w1 sc' w' Hok Hrun) as [_ Hidle].
    specialize (Hidle eq_refl). split; [apply Hidle|done].
Qed.

(** The ways a call made through [prepare], [push]* and [execute] goes
    wrong, with the native side as the call leaves it: the name has no
    value, or a value that is not a function; the function raises an error;
    the function returns, and its first result is not a number. *)
Inductive call_error (name : string) (args : list Argument) (sc : LuaScript)
    (w : World) : Z -> Value -> World -> Prop :=
  | unresolved_name :
      globals (store (mState sc)) !! c_str name = None ->
      call_error name args sc w LUA_ERRRUN
        (LString "attempt to call a nil value") w
  | not_a_function v :
      globals (store (mState sc)) !! c_str name = Some v ->
      type_of v <> LUA_TFUNCTION ->
      call_error name args sc w LUA_ERRRUN
        (LString ("attempt to call a " +:+ lua_typename (type_of v) +:+ " value")) w
  | runtime_error f e err st' w' :
      globals (store (mState sc)) !! c_str name = Some (LFunction f) ->
      call_function (state_id (mState sc)) f (map value_of args)
        (store (mState sc)) w = Done (Raised e err st' w') ->
      call_error name args sc w (status_of e) err w'
  | result_not_numeric f vals st' w' :
      globals (store (mState sc)) !! c_str name = Some (LFunction f) ->
      call_function (state_id (mState sc)) f (map value_of args)
        (store (mState sc)) w = Done (Returned vals st' w') ->
      is_numeric (default LNil (head vals)) = false ->
      call_error name args sc w 0 (default LNil (head vals)) w'.

(** C3.  When the call goes wrong (the prepared name is unresolved, the
    interpreter raises an error, or the value returned is not a number)
    execute() returns zero and logs the failure: the log is the log the call
    left with one warning more, made of the status, the type and the
    message, and nothing else of the native side changes.  It returns
    normally, to a script that is idle again. *)
Theorem execute_call_error_returns_zero
    (name : string) (args : list Argument) (sc : LuaScript) (w : World)
    (res : Z) (v : Value) (w' : World) :
  idle sc ->
  Z.of_nat (List.length args) <= INT_MAX ->
  call_error name args sc w res v w' ->
  exists sc' w'',
    call_script name args sc w = Done (0, sc', w'') /\
    idle sc' /\
    log w'' = log w' ++ [call_failure res v] /\
    sent w'' = sent w' /\
    things w'' = things w' /\
    open_states w'' = open_states w' /\
    level (call_failure res v) = LogWarn /\
    message (call_failure res v) =
      [SText "Failure while calling Lua function: error="; SNum res;
       SText ", type="; SText (lua_typename (type_as_text v));
       SText ", message="; SCStr (Some (default EmptyString (text_of v)))].
Proof.
  intros Hi Hlen Herr. rewrite (call_script_idle name args sc w Hi Hlen).
  destruct Herr as [Hg | fv Hg Hty | f e err st' w' Hg Hc | f vals st' w' Hg Hc Hnum];
    rewrite Hg; simpl.
  - eexists _, _. split; [reflexivity|]. by split_and!.
  - destruct fv; try (eexists _, _; split; [reflexivity|]; by split_and!).
    by destruct Hty.
  - rewrite Hc. simpl. eexists _, _. split; [reflexivity|]. by split_and!.
  - rewrite Hc. simpl. rewrite Hnum. eexists _, _. split; [reflexivity|]. by split_and!.
Qed.

(** C4.  When the script defines the prepared name as a function that, on
    the arguments pushed, in the order pushed, returns the integer [n],
    then [prepare(name)], [push(arg)]*, [execute()] returns [n]. *)
Theorem call_script_returns_result
    (name : string) (args : list Argument) (sc : LuaScript) (w : World)
    (f : LuaFunction) (n : Z) (more : list Value) (st' : Store num Priv) (w' : World) :
  idle sc ->
  Z.of_nat (List.length args) <= INT_MAX ->
  INT_MIN <= n <= INT_MAX ->
  globals (store (mState sc)) !! c_str name = Some (LFunction f) ->
  call_function (state_id (mState sc)) f (map value_of args) (store (mState sc)) w
    = Done (Returned (LNumber (num_of_int n) :: more) st' w') ->
  call_script name args sc w = Done (n, at_rest (state_id (mState sc)) st', w').
Proof.
  intros Hi Hlen Hn Hg Hc. rewrite (call_script_idle name args sc w Hi Hlen).
  rewrite Hg. simpl. rewrite Hc. simpl.
  by rewrite (num_to_integer_of_int n Hn), (to_int_id n Hn).
Qed.

(** C5.  With no call in progress, push() and execute() stop at their
    assertion; with a call in progress, prepare() stops at its assertion.
    None of them returns. *)
Theorem misuse_fails_assertion
    (resting busy : LuaScript) (name : string) (a : Argument) (v : Z) (w : World) :
  nbArgs resting = -1 ->
  0 <= nbArgs busy ->
  push_int v resting = AssertFail /\
  push_Thing v resting = AssertFail /\
  push a resting = AssertFail /\
  execute resting w = AssertFail /\
  prepare name busy = AssertFail.
Proof.
  intros Hr Hb.
  assert (H1 : (0 <=? nbArgs resting) = false) by (apply Z.leb_gt; lia).
  assert (H2 : (nbArgs busy =? -1) = false) by (apply Z.eqb_neq; lia).
  unfold push, push_int, push_Thing, execute, prepare.
  rewrite H1, H2. simpl. by destruct a.
Qed.

(** *** The callbacks and their arguments *)

Definition callback_name (c : CFunction) : string :=
  match c with
  | LuaMsg_NpcMessage_fn => "LuaMsg_NpcMessage"
  | LuaMsg_NpcChoice_fn => "LuaMsg_NpcChoice"
  end.

Definition callback_message (c : CFunction) : MessageId :=
  match c with
  | LuaMsg_NpcMessage_fn => GPMSG_NPC_MESSAGE
  | LuaMsg_NpcChoice_fn => GPMSG_NPC_CHOICE
  end.

(** The warning a callback logs when it turns its arguments down. *)
Definition incorrect_parameters (c : CFunction) : LogEntry :=
  LOG_WARN [SText (callback_name c +:+ " called with incorrect parameters.")].

(** An argument the callbacks take for an object of kind [k]: a light
    userdata whose address holds a live object of that kind. *)
Definition refers_to (k : ThingType) (w : World) (v : option Value) : bool :=
  match v with
  | Some (LLightUserData p) =>
      match things w !! p with
      | Some th => bool_decide (getType th = k)
      | None => false
      end
  | _ => false
  end.

(** An argument [lua_tolstring] has a string for: a string or a number. *)
Definition has_text (v : option Value) : bool :=
  match v with
  | Some (LString _) | Some (LNumber _) => true
  | _ => false
  end.

(** The argument lists the callbacks act on. *)
Definition accepted (w : World) (s : lua_State) : bool :=
  refers_to OBJECT_NPC w (index2adr s 1) &&
  refers_to OBJECT_CHARACTER w (index2adr s 2) &&
  has_text (index2adr s 3).

(** A light userdata argument whose address holds a live object; any
    other argument passes. *)
Definition live_if_pointer (w : World) (v : option Value) : bool :=
  match v with
  | Some (LLightUserData p) => bool_decide (is_Some (things w !! p))
  | _ => true
  end.

Definition pointers_live (w : World) (s : lua_State) : bool :=
  live_if_pointer w (index2adr s 1) && live_if_pointer w (index2adr s 2).

Lemma getNPC_live (w : World) (s : lua_State) (i : Z) :
  live_if_pointer w (index2adr s i) = true ->
  getNPC w s i =
    Done (if refers_to OBJECT_NPC w (index2adr s i) then Some (lua_touserdata s i)
          else None).
Proof.
  unfold getNPC, lua_islightuserdata, lua_touserdata, live_if_pointer, refers_to.
  destruct (index2adr s i) as [[]|]; simpl; try done.
  intros Hl. apply bool_decide_eq_true in Hl as [th Hth]. rewrite Hth.
  destruct (decide (getType th <> OBJECT_NPC)) as [Hne|He].
  - by rewrite bool_decide_eq_false_2.
  - apply dec_stable in He. by rewrite bool_decide_eq_true_2.
Qed.

Lemma getCharacter_live (w : World) (s : lua_State) (i : Z) :
  live_if_pointer w (index2adr s i) = true ->
  getCharacter w s i =
    Done (if refers_to OBJECT_CHARACTER w (index2adr s i) then Some (lua_touserdata s i)
          else None).
Proof.
  unfold getCharacter, lua_islightuserdata, lua_touserdata, live_if_pointer, refers_to.
  destruct (index2adr s i) as [[]|]; simpl; try done.
  intros Hl. apply bool_decide_eq_true in Hl as [th Hth]. rewrite Hth.
  destruct (decide (getType th <> OBJECT_CHARACTER)) as [Hne|He].
  - by rewrite bool_decide_eq_false_2.
  - apply dec_stable in He. by rewrite bool_decide_eq_true_2.
Qed.

Lemma lua_tolstring_text (s : lua_State) (i : Z) :
  (if has_text (index2adr s i) then is_Some (lua_tolstring s i).1
   else (lua_tolstring s i).1 = None) /\
  store (lua_tolstring s i).2 = store s /\
  state_id (lua_tolstring s i).2 = state_id s.
Proof.
  unfold lua_tolstring, has_text.
  destruct (index2adr s i) as [[]|]; simpl; split_and?; eauto.
  - unfold set_index. by repeat case_match.
  - unfold set_index. by repeat case_match.
Qed.

Lemma callback_turns_down (c : CFunction) (s : lua_State) (w : World) :
  pointers_live w s = true ->
  accepted w s = false ->
  exists s',
    c_function c s w = Done (0, s', add_log (incorrect_parameters c) w) /\
    store s' = store s.
Proof.
  unfold pointers_live, accepted. intros [H1 H2]%andb_true_iff Hacc.
  destruct (lua_tolstring_text s 3) as (Ht & Hst & _).
  destruct c; simpl; unfold LuaMsg_NpcMessage, LuaMsg_NpcChoice;
    rewrite (getNPC_live w s 1 H1); simpl;
    rewrite (getCharacter_live w s 2 H2); simpl;
    destruct (lua_tolstring s 3) as [m s1]; simpl in Ht, Hst;
    exists s1;
    destruct (refers_to OBJECT_NPC w _), (refers_to OBJECT_CHARACTER w _),
      (has_text _); simpl in *; try discriminate; try rewrite Ht; try done;
    by destruct m.
Qed.

(** C7, in the form that holds of the code. Either callback, on arguments
    whose light userdata at positions 1 and 2 refer to live objects: when
    argument 1 does not refer to an NPC, or argument 2 does not refer to a
    Character, or argument 3 is neither a string nor a number, the callback
    logs one warning that names it and does nothing else: nothing is sent, no
    object changes, no result goes back to the script and no error is raised
    in the interpreter. *)
Theorem callback_rejects_incorrect_parameters
    (c : CFunction) (id : nat) (args : list Value) (st : Store num Priv) (w : World) :
  pointers_live w {| state_id := id; stack := args; store := st |} = true ->
  accepted w {| state_id := id; stack := args; store := st |} = false ->
  (exists s',
      c_function c {| state_id := id; stack := args; store := st |} w
        = Done (0, s', add_log (incorrect_parameters c) w)) /\
  call_function id (CFn c) args st w
    = Done (Returned [] st (add_log (incorrect_parameters c) w)) /\
  sent (add_log (incorrect_parameters c) w) = sent w /\
  things (add_log (incorrect_parameters c) w) = things w /\
  log (add_log (incorrect_parameters c) w) = log w ++ [incorrect_parameters c].
Proof.
  intros Hl Ha.
  destruct (callback_turns_down c _ w Hl Ha) as (s' & Hc & Hst). simpl in Hst.
  split_and!; try done.
  - by exists s'.
  - unfold call_function. rewrite Hc. simpl. rewrite Hst.
    by rewrite Nat.sub_0_r, drop_all.
Qed.

(** The shape of an argument list in the words of the system description:
    an argument is absent, an integer, an entity handle or a string, and the
    two callbacks expect (entity handle, entity handle, string). *)
Inductive ArgumentTag : Set :=
  | TagAbsent | TagInteger | TagEntityHandle | TagString | TagOther.

#[global] Instance ArgumentTag_eq_dec : EqDecision ArgumentTag.
Proof. solve_decision. Defined.

Definition spec_tag (v : option Value) : ArgumentTag :=
  match v with
  | None | Some LNil => TagAbsent
  | Some (LNumber _) => TagInteger
  | Some (LLightUserData _) => TagEntityHandle
  | Some (LString _) => TagString
  | Some _ => TagOther
  end.

Definition spec_expected_shape : list ArgumentTag :=
  [TagEntityHandle; TagEntityHandle; TagString].

Definition spec_shape_matches (s : lua_State) : bool :=
  bool_decide ([spec_tag (index2adr s 1); spec_tag (index2adr s 2);
                spec_tag (index2adr s 3)] = spec_expected_shape).

(** C1. push() of a [Thing] pointer hands the interpreter the address of the
    object itself. Once the object at that address is destroyed, getNPC and
    getCharacter, and with them both callbacks, dereference the address all
    the same; and an object created later at the same address is taken for the
    one the script was given. *)
Theorem push_Thing_passes_raw_address
    (sc : LuaScript) (fv : Value) (args : list Value) (v : Z) (w : World)
    (s : lua_State) (rest : list Value) (t' : Thing) :
  preparing sc fv args ->
  Z.of_nat (List.length args) < INT_MAX ->
  stack s = LLightUserData v :: rest ->
  getType t' = OBJECT_NPC ->
  (exists sc', push_Thing v sc = Done sc' /\
               stack (mState sc') = fv :: args ++ [LLightUserData v]) /\
  getNPC (destroy v w) s 1 = Undefined /\
  getCharacter (destroy v w) s 1 = Undefined /\
  LuaMsg_NpcMessage s (destroy v w) = Undefined /\
  LuaMsg_NpcChoice s (destroy v w) = Undefined /\
  getNPC (create v t' (destroy v w)) s 1 = Done (Some v) /\
  publicID_of (create v t' (destroy v w)) v = Done (getPublicID t').
Proof.
  intros Hp Hlen Hs Ht.
  assert (Hd : things (destroy v w) !! v = None) by (simpl; apply lookup_delete_eq).
  assert (Hc : things (create v t' (destroy v w)) !! v = Some t')
    by (simpl; apply lookup_insert_eq).
  assert (Hn : getNPC (destroy v w) s 1 = Undefined).
  { unfold getNPC, lua_islightuserdata, lua_touserdata, index2adr.
    rewrite Hs. simpl. by rewrite lookup_delete_eq. }
  split_and!.
  - destruct (push_preparing (ArgThing v) sc fv args Hp Hlen) as (sc' & Hpush & [Hst _] & _).
    exists sc'. by split.
  - done.
  - unfold getCharacter, lua_islightuserdata, lua_touserdata, index2adr.
    rewrite Hs. simpl. by rewrite lookup_delete_eq.
  - unfold LuaMsg_NpcMessage. by rewrite Hn.
  - unfold LuaMsg_NpcChoice. by rewrite Hn.
  - unfold getNPC, lua_islightuserdata, lua_touserdata, index2adr.
    rewrite Hs. simpl. rewrite lookup_insert_eq.
    destruct (decide (getType t' <> OBJECT_NPC)); done.
  - unfold publicID_of. by rewrite Hc.
Qed.

(** *** Loading *)

(** The loads that yield no script, with what loadScript() logs for each:
    the resource manager has no such file; the text does not parse; the
    interpreter runs out of memory while it reads the text. *)
Inductive load_failure (filename : string) : list LogEntry -> Prop :=
  | file_missing :
      loadFile filename = None ->
      load_failure filename []
  | syntax_error buffer msg :
      loadFile filename = Some buffer ->
      lua_load (c_str buffer) = LoadSyntaxError msg ->
      load_failure filename
        [LOG_ERROR [SText "Syntax error while loading script "; SText filename]]
  | out_of_memory buffer msg :
      loadFile filename = Some buffer ->
      lua_load (c_str buffer) = LoadMemError msg ->
      load_failure filename [].

Lemma close_new_state (w : World) (l : list LogEntry) (s1 : lua_State) :
  state_id s1 = fresh (open_states w) ->
  lua_close s1 {| things := things w; sent := sent w; log := l;
                  open_states := {[fresh (open_states w)]} ∪ open_states w |}
  = Done {| things := things w; sent := sent w; log := l;
            open_states := open_states w |}.
Proof.
  intros Hid. unfold lua_close. simpl. rewrite Hid.
  destruct (decide _) as [_|Hn]; [|set_solver].
  do 2 f_equal. pose proof (is_fresh (open_states w)). set_solver.
Qed.

(** C6, in the form that holds of the code. A load of a file that is missing
    or does not parse yields no script and leaves no interpreter state open:
    for a missing file none is created and loadScript() logs nothing; for a
    text that does not parse the state just created is closed, after the
    syntax error has been logged. *)
Theorem loadScript_failure_leaves_no_state
    (filename : string) (w : World) (entries : list LogEntry) :
  load_failure filename entries ->
  loadScript filename w =
    Done (None, {| things := things w; sent := sent w; log := log w ++ entries;
                   open_states := open_states w |}).
Proof.
  intros [Hf | buffer msg Hf Hl | buffer msg Hf Hl]; unfold loadScript; rewrite Hf.
  - rewrite app_nil_r. by destruct w.
  - unfold luaL_newstate, luaL_loadstring. rewrite Hl. simpl.
    unfold add_log. simpl. by rewrite close_new_state.
  - unfold luaL_newstate, luaL_loadstring. rewrite Hl. simpl.
    rewrite close_new_state; [|done]. by rewrite app_nil_r.
Qed.

(** *** Construction *)


Lemma LuaScript_new_pcall (s : lua_State) (w : World) (k : nat) :
  stack s = [LFunction (LuaFn k)] ->
  lua_pcall (luaL_openlibs s) 0 0 w =
    r ← lua_run k [] (openlibs (store s)) w;
    match r with
    | Returned vals st' w' =>
        Done (0, {| state_id := state_id s; stack := []; store := st' |}, w')
    | Raised e err st' w' =>
        Done (status_of e, {| state_id := state_id s; stack := [err]; store := st' |}, w')
    end.
Proof.
  intros Hs.
  pose proof (lua_pcall_prepared (luaL_openlibs s) (LFunction (LuaFn k)) [] 0 w Hs) as H.
  simpl in H. change (Z.of_nat 0) with 0 in H. rewrite H. reflexivity.
Qed.






(** ** The callbacks at work *)

(** X9.  Either callback, called with an NPC, a Character and a string or
    a number: it sends the Character one message of its kind, made of the
    NPC's public id and the text, cut at its first NUL and padded to the
    length Lua gives for it; it logs nothing and hands the script no
    result. *)
Theorem callback_sends_message
    (c : CFunction) (s : lua_State) (w : World)
    (p q : Z) (v : Value) (rest : list Value) (np ch : Thing) (m : string) :
  stack s = LLightUserData p :: LLightUserData q :: v :: rest ->
  things w !! p = Some np ->
  getType np = OBJECT_NPC ->
  things w !! q = Some ch ->
  getType ch = OBJECT_CHARACTER ->
  text_of v = Some m ->
  let msg := {| msg_id := callback_message c;
                msg_fields := [writeShort (getPublicID np);
                               writeString (c_str m) (Z.of_nat (String.length m))] |} in
  exists s' w',
    c_function c s w = Done (0, s', w') /\
    store s' = store s /\
    sent w' = sent w ++ [(q, msg)] /\
    log w' = log w /\
    things w' = things w /\
    open_states w' = open_states w.
Proof.
  intros Hs Hp Hnp Hq Hch Hm msg.
  assert (H1 : getNPC w s 1 = Done (Some p)).
  { unfold getNPC, lua_islightuserdata, lua_touserdata, index2adr. rewrite Hs. simpl.
    rewrite Hp. destruct (decide (getType np <> OBJECT_NPC)); done. }
  assert (H2 : getCharacter w s 2 = Done (Some q)).
  { unfold getCharacter, lua_islightuserdata, lua_touserdata, index2adr. rewrite Hs. simpl.
    rewrite Hq. destruct (decide (getType ch <> OBJECT_CHARACTER)); done. }
  assert (H3 : (lua_tolstring s 3).1 = Some m /\ store (lua_tolstring s 3).2 = store s).
  { unfold lua_tolstring, index2adr. rewrite Hs. simpl.
    destruct v; simpl in Hm; try discriminate; injection Hm as <-; by split. }
  destruct H3 as [H3 H4].
  assert (H5 : publicID_of w p = Done (getPublicID np))
    by (unfold publicID_of; by rewrite Hp).
  destruct (lua_tolstring s 3) as [m' s1] eqn:Ht. simpl in H3, H4. subst m'.
  exists s1, (sendTo q msg w). split; [|by split_and!].
  destruct c; simpl; unfold LuaMsg_NpcMessage, LuaMsg_NpcChoice;
    rewrite H1; simpl; rewrite H2; simpl; rewrite Ht; simpl; by rewrite H5.
Qed.

(** X10.  Whenever a callback returns: it hands the script no result,
    leaves the simulation objects, the open interpreter states and the
    interpreter's store as they were, and has done exactly one thing, either
    logged its warning or sent one message of its kind. *)
Theorem callback_does_one_thing
    (c : CFunction) (s : lua_State) (w : World) (n : Z) (s' : lua_State) (w' : World) :
  c_function c s w = Done (n, s', w') ->
  n = 0 /\
  things w' = things w /\
  open_states w' = open_states w /\
  store s' = store s /\
  ((sent w' = sent w /\ log w' = log w ++ [incorrect_parameters c]) \/
   (log w' = log w /\
    exists q msg, sent w' = sent w ++ [(q, msg)] /\ msg_id msg = callback_message c)).
Proof.
  destruct (lua_tolstring_text s 3) as (_ & Hst & _).
  assert (Hgen : forall (k : MessageId) (warning : LogEntry),
    (p ← getNPC w s 1;
     q ← getCharacter w s 2;
     let '(m, s1) := lua_tolstring s 3 in
     match p, q, m with
     | Some p, Some q, Some m =>
         id ← publicID_of w p;
         Done (0, s1,
               sendTo q {| msg_id := k;
                           msg_fields := [writeShort id;
                                          writeString (c_str m)
                                            (Z.of_nat (String.length m))] |} w)
     | _, _, _ => Done (0, s1, add_log warning w)
     end) = Done (n, s', w') ->
    n = 0 /\ things w' = things w /\ open_states w' = open_states w /\
    store s' = store s /\
    ((sent w' = sent w /\ log w' = log w ++ [warning]) \/
     (log w' = log w /\
      exists q msg, sent w' = sent w ++ [(q, msg)] /\ msg_id msg = k))).
  { intros k warning.
    destruct (getNPC w s 1) as [p| | | |]; simpl; try discriminate.
    destruct (getCharacter w s 2) as [q| | | |]; simpl; try discriminate.
    destruct (lua_tolstring s 3) as [m s1]. simpl in Hst.
    assert (Hwarn : Done (0, s1, add_log warning w) = Done (n, s', w') ->
      n = 0 /\ things w' = things w /\ open_states w' = open_states w /\
      store s' = store s /\
      ((sent w' = sent w /\ log w' = log w ++ [warning]) \/
       (log w' = log w /\
        exists q msg, sent w' = sent w ++ [(q, msg)] /\ msg_id msg = k))).
    { intros [= <- <- <-]. split_and!; try done. by left. }
    destruct p as [p|]; [|exact Hwarn].
    destruct q as [q|]; [|exact Hwarn].
    destruct m as [m|]; [|exact Hwarn].
    destruct (publicID_of w p) as [id| | | |]; simpl; try discriminate.
    intros [= <- <- <-]. split_and!; try done. right. split; [done|]. eauto. }
  destruct c; simpl; apply Hgen.
Qed.

(** ** Results and arguments *)

(** X11.  A function that returns a string that reads as a number has that
    number for result: execute() returns it, converted to an integer and
    narrowed to int, logs nothing, and disregards any further values the
    function returns. *)
Theorem execute_reads_numeric_string
    (name : string) (args : list Argument) (sc : LuaScript) (w : World)
    (f : LuaFunction) (text : string) (x : num) (more : list Value)
    (st' : Store num Priv) (w' : World) :
  idle sc ->
  Z.of_nat (List.length args) <= INT_MAX ->
  globals (store (mState sc)) !! c_str name = Some (LFunction f) ->
  call_function (state_id (mState sc)) f (map value_of args) (store (mState sc)) w
    = Done (Returned (LString text :: more) st' w') ->
  num_of_str text = Some x ->
  call_script name args sc w
    = Done (to_int (num_to_integer x), at_rest (state_id (mState sc)) st', w') /\
  INT_MIN <= to_int (num_to_integer x) <= INT_MAX.
Proof.
  intros Hi Hlen Hg Hc Hx. split; [|apply to_int_range].
  rewrite (call_script_idle name args sc w Hi Hlen), Hg. simpl. rewrite Hc. simpl.
  rewrite Hx. rewrite bool_decide_eq_true_2; [done|eauto].
Qed.

(** X12.  After prepare(name) and any pushes on an idle script, [nbArgs]
    is the number of values pushed and the interpreter's stack holds the
    value of the global [name] (nil if there is none) followed by the values
    pushed, first pushed first; the interpreter's store is untouched. *)
Theorem prepare_push_builds_call
    (name : string) (args : list Argument) (sc : LuaScript) :
  idle sc ->
  Z.of_nat (List.length args) <= INT_MAX ->
  exists sc1 sc2,
    prepare name sc = Done sc1 /\
    push_all args sc1 = Done sc2 /\
    nbArgs sc2 = Z.of_nat (List.length args) /\
    stack (mState sc2)
      = default LNil (globals (store (mState sc)) !! c_str name) :: map value_of args /\
    store (mState sc2) = store (mState sc).
Proof.
  intros Hi Hlen.
  destruct (prepare_idle name sc Hi) as (sc1 & Hp & Hp1 & _ & Hst1).
  destruct (push_all_preparing args sc1 _ [] Hp1) as (sc2 & Hall & [Hs Hn] & _ & Hst2);
    [simpl; lia|].
  exists sc1, sc2. simpl in Hs, Hn. rewrite length_map in Hn.
  split_and!; try done. congruence.
Qed.

(** The order in which calls can be made: prepare when no call is in
    progress, push and execute when one is. *)
Fixpoint in_order (busy : bool) (cs : list ScriptCall) : bool :=
  match cs with
  | [] => true
  | Prepare _ :: cs' => negb busy && in_order true cs'
  | Push _ :: cs' => busy && in_order true cs'
  | Execute :: cs' => busy && in_order false cs'
  end.

Definition in_state (busy : bool) (sc : LuaScript) : Prop :=
  if busy then exists fv args, preparing sc fv args else idle sc.

Lemma run_calls_in_order (cs : list ScriptCall) :
  forall (busy : bool) (sc : LuaScript) (w : World) sc' w',
  in_state busy sc ->
  run_calls cs sc w = Done (sc', w') ->
  in_order busy cs = true.
Proof.
  induction cs as [|c cs IH]; intros busy sc w sc' w' Hst Hr; [done|].
  cbn [run_calls] in Hr.
  destruct (do_call c sc w) as [[sc1 w1]| | | |] eqn:Hc; simpl in Hr; try discriminate.
  assert (Hok : context_ok sc).
  { destruct busy; [by right|by left]. }
  destruct (do_call_context c sc w sc1 w1 Hok Hc) as [Hok1 Hex].
  destruct c as [name|a|]; simpl in Hc |- *.
  - (* prepare returned: the script was idle and is now busy *)
    destruct (prepare name sc) as [sc2| | | |] eqn:Hp; simpl in Hc; try discriminate.
    injection Hc as <- <-. unfold prepare in Hp.
    destruct (nbArgs sc =? -1) eqn:Hn; simpl in Hp; [|discriminate].
    apply Z.eqb_eq in Hn. injection Hp as <-.
    destruct busy; simpl.
    + destruct Hst as (fv & args & _ & Hnb). lia.
    + eapply (IH true); [|exact Hr]. simpl.
      destruct Hok1 as [[Hn1 _]|Hpre]; [simpl in Hn1; lia|done].
  - (* push returned: a call was and is in progress *)
    destruct (push a sc) as [sc2| | | |] eqn:Hp; simpl in Hc; try discriminate.
    injection Hc as <- <-.
    assert (Hge : 0 <= nbArgs sc /\ 0 <= nbArgs sc2).
    { destruct a; simpl in Hp; unfold push_int, push_Thing in Hp;
        (destruct (0 <=? nbArgs sc) eqn:Hn; simpl in Hp; [|discriminate]);
        apply Z.leb_le in Hn; unfold incr in Hp;
        (destruct (nbArgs sc <? INT_MAX); simpl in Hp; [|discriminate]);
        injection Hp as <-; simpl; lia. }
    destruct busy; simpl.
    + eapply (IH true); [|exact Hr]. simpl.
      destruct Hok1 as [[Hn1 _]|Hpre]; [lia|done].
    + destruct Hst as [Hn _]. lia.
  - (* execute returned: a call was in progress and none is now *)
    destruct busy; simpl.
    + eapply (IH false); [|exact Hr]. simpl. by apply Hex.
    + destruct Hst as [Hn _]. unfold execute in Hc.
      replace (0 <=? nbArgs sc) with false in Hc by (symmetry; apply Z.leb_gt; lia).
      discriminate.
Qed.

(** X13.  A sequence of prepare, push and execute calls on an idle script
    returns only if it is in order: every prepare comes when no call is in
    progress, every push and every execute when one is.  Any other sequence
    stops at an assertion, or before. *)
Theorem calls_return_only_in_order
    (cs : list ScriptCall) (sc : LuaScript) (w : World) (sc' : LuaScript) (w' : World) :
  idle sc ->
  run_calls cs sc w = Done (sc', w') ->
  in_order false cs = true.
Proof. intros Hi Hr. by apply (run_calls_in_order cs false sc w sc' w'). Qed.

(** ** Loading and registration, further *)

Lemma luaL_register_stack (L : lua_State) (libname : string)
    (l : list (string * CFunction)) (L2 : lua_State) :
  luaL_register L libname l = Done L2 ->
  state_id L2 = state_id L /\ exists r, stack L2 = stack L ++ [LTable r].
Proof.
  unfold luaL_register.
  destruct (loaded (store L) !! libname) as [[]|];
    try (intros [= <-]; simpl; eauto);
    (destruct (default LNil (globals (store L) !! libname));
     try discriminate; intros [= <-]; simpl; eauto).
Qed.

(** The constructor, when it returns, leaves the script idle on the state
    it was given. *)
Lemma LuaScript_new_idle (s : lua_State) (w : World) (k : nat)
    (sc : LuaScript) (w' : World) :
  stack s = [LFunction (LuaFn k)] ->
  LuaScript_new s w = Done (sc, w') ->
  idle sc /\ state_id (mState sc) = state_id s.
Proof.
  intros Hs. unfold LuaScript_new. rewrite (LuaScript_new_pcall s w k Hs).
  destruct (lua_run k [] (openlibs (store s)) w) as [[vals st1 w1|e err st1 w1]| | | |];
    simpl; try discriminate.
  - destruct (luaL_register _ _ _) as [L2| | | |] eqn:Hreg; simpl; try discriminate.
    apply luaL_register_stack in Hreg as (Hid & r & Hst). simpl in Hid, Hst.
    intros [= <- <-]. unfold idle, lua_pop. simpl. rewrite Hst. by split_and!.
  - destruct (status_of e =? 0) eqn:He.
    { apply Z.eqb_eq in He. by destruct (status_of_nonzero e). }
    simpl.
    pose proof (one_tostring_pop (state_id s) err st1) as Hp.
    destruct (lua_tostring _ 1) as [m L2]. simpl in Hp.
    intros [= <- <-]. rewrite Hp. by split.
Qed.

(** X14.  loadScript() returns a script only for a file that the resource
    manager has and that parses; the script it returns is idle, and its
    interpreter state is one that was not open before the call. *)
Theorem loadScript_returns_idle_script
    (filename : string) (w : World) (sc : LuaScript) (w' : World) :
  loadScript filename w = Done (Some sc, w') ->
  (exists buffer k,
      loadFile filename = Some buffer /\ lua_load (c_str buffer) = LoadOk k) /\
  idle sc /\
  state_id (mState sc) ∉ open_states w.
Proof.
  unfold loadScript.
  destruct (loadFile filename) as [buffer|]; [|discriminate].
  unfold luaL_newstate, luaL_loadstring.
  destruct (lua_load (c_str buffer)) as [k|msg|msg] eqn:Hl; simpl.
  - destruct (LuaScript_new _ _) as [[sc1 w1]| | | |] eqn:Hnew; simpl; try discriminate.
    intros [= <- <-].
    apply (LuaScript_new_idle _ _ k) in Hnew as [Hi Hid]; [|done].
    simpl in Hid. split_and!; [eauto|done|]. rewrite Hid. apply is_fresh.
  - destruct (lua_close _ _); simpl; discriminate.
  - destruct (lua_close _ _); simpl; discriminate.
Qed.

(** X15.  When the top-level code of a script leaves a global tmw that is
    neither nil nor a table, and no loaded module of that name, the
    registration of the callbacks raises a Lua error; the constructor makes
    the call outside any protected call. *)
Theorem LuaScript_new_panics_on_name_conflict
    (s : lua_State) (w : World) (k : nat)
    (vals : list Value) (st1 : Store num Priv) (w1 : World) (v : Value) :
  stack s = [LFunction (LuaFn k)] ->
  lua_run k [] (openlibs (store s)) w = Done (Returned vals st1 w1) ->
  loaded st1 !! "tmw"%string = None ->
  globals st1 !! "tmw"%string = Some v ->
  type_of v <> LUA_TNIL ->
  type_of v <> LUA_TTABLE ->
  LuaScript_new s w = Panic.
Proof.
  intros Hs Hr Hl Hg Hnil Htab. unfold LuaScript_new.
  rewrite (LuaScript_new_pcall s w k Hs), Hr. simpl.
  unfold luaL_register. simpl. rewrite Hl, Hg. simpl.
  by destruct v.
Qed.

(** X16.  When the top-level code of a script leaves a global tmw that is
    a table, and no loaded module of that name, the constructor registers
    the callbacks in that table: its fields msg_npc_message and
    msg_npc_choice become the callbacks, its other fields, the other tables
    and the globals stay as the script left them. *)
Theorem LuaScript_new_extends_script_table
    (s : lua_State) (w : World) (k : nat)
    (vals : list Value) (st1 : Store num Priv) (w1 : World) (r : nat) :
  stack s = [LFunction (LuaFn k)] ->
  lua_run k [] (openlibs (store s)) w = Done (Returned vals st1 w1) ->
  loaded st1 !! "tmw"%string = None ->
  globals st1 !! "tmw"%string = Some (LTable r) ->
  exists st2,
    LuaScript_new s w = Done (at_rest (state_id s) st2, w1) /\
    globals st2 = globals st1 /\
    table_fields st2 r !! "msg_npc_message"%string
      = Some (LFunction (CFn LuaMsg_NpcMessage_fn)) /\
    table_fields st2 r !! "msg_npc_choice"%string
      = Some (LFunction (CFn LuaMsg_NpcChoice_fn)) /\
    (forall x, x <> "msg_npc_message"%string -> x <> "msg_npc_choice"%string ->
       table_fields st2 r !! x = table_fields st1 r !! x) /\
    (forall r', r' <> r -> tables st2 !! r' = tables st1 !! r').
Proof.
  intros Hs Hr Hl Hg. unfold LuaScript_new.
  rewrite (LuaScript_new_pcall s w k Hs), Hr. simpl.
  unfold luaL_register. simpl. rewrite Hl, Hg. simpl.
  eexists. split; [reflexivity|].
  unfold set_fields, callbacks, set_field, table_fields. simpl.
  split_and!.
  - done.
  - rewrite !lookup_insert_eq. simpl. rewrite lookup_insert_ne; [|done].
    apply lookup_insert_eq.
  - rewrite !lookup_insert_eq. simpl. apply lookup_insert_eq.
  - intros x H1 H2. rewrite !lookup_insert_eq. simpl.
    by rewrite !lookup_insert_ne.
  - intros r' Hne. by rewrite !lookup_insert_ne.
Qed.

End Script.

(** ** A concrete host

    Numbers are integers, and the interpreter knows three script texts.
    The functions they define are given by what they do. *)

Definition decimal_digit (c : ascii) : option Z :=
  let n := Z.of_nat (nat_of_ascii c) in
  if (48 <=? n) && (n <=? 57) then Some (n - 48) else None.

Fixpoint decimal (s : string) (acc : Z) : option Z :=
  match s with
  | EmptyString => Some acc
  | String c s' =>
      match decimal_digit c with
      | Some d => decimal s' (10 * acc + d)
      | None => None
      end
  end.

Definition parse_integer (s : string) : option Z :=
  match s with
  | EmptyString => None
  | String "-" EmptyString => None
  | String "-" s' => Z.opp <$> decimal s' 0
  | _ => decimal s 0
  end.

#[global] Instance Z_LuaNumber : LuaNumber Z :=
  {| num_of_int := fun v => v;
     num_to_integer := fun n => n;
     num_to_str := pretty;
     num_of_str := parse_integer;
     num_to_integer_of_int := fun v _ => eq_refl |}.

Definition talk_lua : string :=
  "function onTalk(npc, ch) tmw.msg_npc_message(npc, ch, 'Hello') return 1 end
function second(a, b) return b end
function mood() return 'fine' end
function fail() error('no') end
function spin() while true do end end".

Definition early_lua : string :=
  "function onTalk(npc, ch) return 1 end
tmw.msg_npc_message(nil, nil, 'too early')".

Definition broken_lua : string := "function onTalk(".

Definition clash_lua : string := "tmw = 5".

Definition define (k : string) (v : LuaValue Z) (st : Store Z unit) : Store Z unit :=
  {| globals := <[k := v]> (globals st); loaded := loaded st;
     tables := tables st; priv := priv st |}.

(** The field [k] of the global table [t], called on [args]. *)
Definition call_field (t k : string) (args : list (LuaValue Z))
    (st : Store Z unit) (w : World) : Outcome (CallResult Z unit) :=
  match globals st !! t with
  | Some (LTable r) =>
      match default ∅ (tables st !! r) !! k with
      | Some (LFunction (CFn c)) =>
          '(_, s', w') ← c_function c {| state_id := 0; stack := args; store := st |} w;
          Done (Returned [] (store s') w')
      | _ => Done (Raised ErrRun (LString ("attempt to call field '" +:+ k +:+ "' (a nil value)")) st w)
      end
  | _ => Done (Raised ErrRun (LString ("attempt to index global '" +:+ t +:+ "' (a nil value)")) st w)
  end.

Definition sample_run (k : nat) (args : list (LuaValue Z))
    (st : Store Z unit) (w : World) : Outcome (CallResult Z unit) :=
  match k with
  | 0%nat => (* the chunk of talk_lua *)
      Done (Returned []
              (define "spin" (LFunction (LuaFn 5))
              (define "fail" (LFunction (LuaFn 4))
              (define "mood" (LFunction (LuaFn 3))
              (define "second" (LFunction (LuaFn 2))
              (define "onTalk" (LFunction (LuaFn 1)) st))))) w)
  | 1%nat => (* onTalk of talk_lua *)
      r ← call_field "tmw" "msg_npc_message"
            [default LNil (args !! 0%nat); default LNil (args !! 1%nat); LString "Hello"] st w;
      match r with
      | Returned _ st' w' => Done (Returned [LNumber 1] st' w')
      | Raised e err st' w' => Done (Raised e err st' w')
      end
  | 2%nat => Done (Returned [default LNil (args !! 1%nat)] st w)
  | 3%nat => Done (Returned [LString "fine"] st w)
  | 4%nat => Done (Raised ErrRun (LString "no") st w)
  | 5%nat => NoReturn
  | 6%nat => (* the chunk of early_lua *)
      call_field "tmw" "msg_npc_message" [LNil; LNil; LString "too early"]
        (define "onTalk" (LFunction (LuaFn 7)) st) w
  | 7%nat => (* onTalk of early_lua *)
      Done (Returned [LNumber 1] st w)
  | 9%nat => (* the chunk of clash_lua *)
      Done (Returned [] (define "tmw" (LNumber 5) st) w)
  | _ => Done (Returned [] st w)
  end.

#[global] Instance sample_host : Host Z unit :=
  {| lua_run := sample_run;
     lua_load := fun text =>
       if String.eqb text talk_lua then LoadOk 0
       else if String.eqb text early_lua then LoadOk 6
       else if String.eqb text broken_lua then LoadSyntaxError "'(' expected near <eof>"
       else if String.eqb text clash_lua then LoadOk 9
       else LoadOk 8;
     openlibs := fun st => st;
     priv_init := tt;
     loadFile := fun f =>
       if String.eqb f "scripts/talk.lua" then Some talk_lua
       else if String.eqb f "scripts/early.lua" then Some early_lua
       else if String.eqb f "scripts/broken.lua" then Some broken_lua
       else None |}.

(** An NPC at address 4096 and a character at address 8192. *)
Definition npc : Z := 4096.
Definition player : Z := 8192.

Definition w0 : World :=
  {| things := <[npc := mkThing OBJECT_NPC 7]> (<[player := mkThing OBJECT_CHARACTER 9]> ∅);
     sent := []; log := []; open_states := ∅ |}.

Definition loaded_or (d : @LuaScript Z unit * World)
    (o : Outcome (option (@LuaScript Z unit) * World)) : @LuaScript Z unit * World :=
  match o with
  | Done (Some sc, w) => (sc, w)
  | _ => d
  end.

Definition no_script : @LuaScript Z unit * World :=
  ({| mState := {| state_id := 0; stack := [];
                   store := {| globals := ∅; loaded := ∅; tables := ∅; priv := tt |} |};
      nbArgs := -1 |}, w0).

(** The script of talk.lua and the native side once it is loaded. *)
Definition talk : @LuaScript Z unit * World :=
  Eval vm_compute in loaded_or no_script (loadScript "scripts/talk.lua" w0).

Example talk_loaded : loadScript "scripts/talk.lua" w0 = Done (Some talk.1, talk.2).
Proof. vm_compute. reflexivity. Qed.

Example talk_idle : idle talk.1.
Proof. split; reflexivity. Qed.

Definition empty_store : Store Z unit :=
  {| globals := ∅; loaded := ∅; tables := ∅; priv := tt |}.

(** A state as [luaL_loadstring] leaves it: the chunk on the stack. *)
Definition chunk_state (k : nat) : @lua_State Z unit :=
  {| state_id := 0; stack := [LFunction (LuaFn k)]; store := empty_store |}.

(** talk.lua with a call to [name] prepared. *)
Definition prepared (name : string) : @LuaScript Z unit :=
  {| mState := lua_getglobal (mState talk.1) name; nbArgs := 0 |}.

Example prepared_mood : prepare "mood" talk.1 = Done (prepared "mood").
Proof. reflexivity. Qed.

(** What the callbacks send for the NPC with public id [id] and [text]. *)
Definition npc_message (m : MessageId) (id : Z) (text : string) : MessageOut :=
  {| msg_id := m;
     msg_fields := [writeShort id; writeString text (Z.of_nat (String.length text))] |}.

(** *** The calling convention on talk.lua *)

Example call_onTalk :
  exists sc',
    call_script "onTalk" [ArgThing npc; ArgThing player] talk.1 talk.2
      = Done (1, sc', sendTo player (npc_message GPMSG_NPC_MESSAGE 7 "Hello") talk.2).
Proof. eexists. vm_compute. reflexivity. Qed.

(** The second argument pushed is the second argument received. *)
Example call_second :
  exists sc', call_script "second" [ArgInt 10; ArgInt 20] talk.1 talk.2 = Done (20, sc', talk.2).
Proof. eexists. vm_compute. reflexivity. Qed.

(** A function that never returns keeps execute() from returning. *)
Example call_spin : call_script "spin" [] talk.1 talk.2 = NoReturn.
Proof. vm_compute. reflexivity. Qed.

(** C2 at talk.lua with [mood] prepared, whose result is a string. *)
Lemma execute_resets_call_context_witness :
  preparing (prepared "mood") (LFunction (LuaFn 3)) [] /\
  call_value 0 (LFunction (LuaFn 3)) [] (store (mState (prepared "mood"))) talk.2
    = Done (Returned [LString "fine"] (store (mState (prepared "mood"))) talk.2) /\
  (exists n sc' w',
      execute (prepared "mood") talk.2 = Done (n, sc', w') /\ nbArgs sc' = -1 /\ idle sc') /\
  (forall (any : @LuaScript Z unit) (v : World) n sc' w',
      execute any v = Done (n, sc', w') -> nbArgs sc' = -1) /\
  (forall (cs : list ScriptCall) (sc0 : @LuaScript Z unit) (v : World) sc' w',
      idle sc0 ->
      run_calls (cs ++ [Execute]) sc0 v = Done (sc', w') ->
      nbArgs sc' = -1 /\ idle sc').
Proof.
  assert (H1 : preparing (prepared "mood") (LFunction (LuaFn 3)) [])
    by (split; reflexivity).
  assert (H2 : call_value 0 (LFunction (LuaFn 3)) [] (store (mState (prepared "mood"))) talk.2
               = Done (Returned [LString "fine"] (store (mState (prepared "mood"))) talk.2))
    by reflexivity.
  split; [exact H1|]. split; [exact H2|].
  exact (execute_resets_call_context (prepared "mood") talk.2 _ _ _ H1 H2).
Defined.

(** C3 at talk.lua and [mood]. *)
Lemma execute_call_error_returns_zero_witness :
  idle talk.1 /\
  Z.of_nat (List.length (@nil Argument)) <= INT_MAX /\
  call_error "mood" [] talk.1 talk.2 0 (LString "fine") talk.2 /\
  exists sc' w'',
    call_script "mood" [] talk.1 talk.2 = Done (0, sc', w'') /\
    idle sc' /\
    log w'' = log talk.2 ++ [call_failure 0 (LString "fine")] /\
    sent w'' = sent talk.2 /\
    things w'' = things talk.2 /\
    open_states w'' = open_states talk.2 /\
    level (call_failure (num := Z) 0 (LString "fine")) = LogWarn /\
    message (call_failure (num := Z) 0 (LString "fine")) =
      [SText "Failure while calling Lua function: error="; SNum 0;
       SText ", type="; SText (lua_typename (type_as_text (num := Z) (LString "fine")));
       SText ", message=";
       SCStr (Some (default EmptyString (text_of (num := Z) (LString "fine"))))].
Proof.
  assert (H1 : idle talk.1) by (split; reflexivity).
  assert (H2 : Z.of_nat (List.length (@nil Argument)) <= INT_MAX) by (vm_compute; discriminate).
  assert (H3 : call_error "mood" [] talk.1 talk.2 0 (LString "fine") talk.2)
    by exact (result_not_numeric "mood" [] talk.1 talk.2 (LuaFn 3) [LString "fine"]
                (store (mState talk.1)) talk.2 eq_refl eq_refl eq_refl).
  split; [exact H1|]. split; [exact H2|]. split; [exact H3|].
  exact (execute_call_error_returns_zero "mood" [] talk.1 talk.2 0 (LString "fine") talk.2
           H1 H2 H3).
Defined.

(** The other call errors, on the same script. *)
Example call_unresolved :
  call_error "nothing" [] talk.1 talk.2 LUA_ERRRUN (LString "attempt to call a nil value") talk.2.
Proof. apply unresolved_name. reflexivity. Qed.

Example call_fail :
  call_error "fail" [ArgInt 1] talk.1 talk.2 LUA_ERRRUN (LString "no") talk.2.
Proof.
  exact (runtime_error "fail" [ArgInt 1] talk.1 talk.2 (LuaFn 4) ErrRun (LString "no")
           (store (mState talk.1)) talk.2 eq_refl eq_refl).
Qed.

(** C4 at talk.lua: [onTalk] on the NPC and the player returns 1. *)
Lemma call_script_returns_result_witness :
  idle talk.1 /\
  Z.of_nat (List.length [ArgThing npc; ArgThing player]) <= INT_MAX /\
  INT_MIN <= 1 <= INT_MAX /\
  globals (store (mState talk.1)) !! c_str "onTalk" = Some (LFunction (LuaFn 1)) /\
  call_function 0 (LuaFn 1) (map value_of [ArgThing npc; ArgThing player])
    (store (mState talk.1)) talk.2
    = Done (Returned [LNumber 1] (store (mState talk.1))
              (sendTo player (npc_message GPMSG_NPC_MESSAGE 7 "Hello") talk.2)) /\
  call_script "onTalk" [ArgThing npc; ArgThing player] talk.1 talk.2
    = Done (1, at_rest 0 (store (mState talk.1)),
            sendTo player (npc_message GPMSG_NPC_MESSAGE 7 "Hello") talk.2).
Proof.
  assert (H1 : idle talk.1) by (split; reflexivity).
  assert (H2 : Z.of_nat (List.length [ArgThing npc; ArgThing player]) <= INT_MAX)
    by (vm_compute; discriminate).
  assert (H3 : INT_MIN <= 1 <= INT_MAX) by (split; vm_compute; discriminate).
  assert (H4 : globals (store (mState talk.1)) !! c_str "onTalk" = Some (LFunction (LuaFn 1)))
    by (vm_compute; reflexivity).
  assert (H5 : call_function 0 (LuaFn 1) (map value_of [ArgThing npc; ArgThing player])
                 (store (mState talk.1)) talk.2
               = Done (Returned [LNumber 1] (store (mState talk.1))
                         (sendTo player (npc_message GPMSG_NPC_MESSAGE 7 "Hello") talk.2)))
    by (vm_compute; reflexivity).
  split; [exact H1|]. split; [exact H2|]. split; [exact H3|].
  split; [exact H4|]. split; [exact H5|].
  exact (call_script_returns_result "onTalk" [ArgThing npc; ArgThing player] talk.1 talk.2
           (LuaFn 1) 1 [] _ _ H1 H2 H3 H4 H5).
Defined.

(** C5 at talk.lua, idle and with [mood] prepared. *)
Lemma misuse_fails_assertion_witness :
  nbArgs talk.1 = -1 /\
  0 <= nbArgs (prepared "mood") /\
  push_int 3 talk.1 = AssertFail /\
  push_Thing 3 talk.1 = AssertFail /\
  push (ArgThing npc) talk.1 = AssertFail /\
  execute talk.1 talk.2 = AssertFail /\
  prepare "onTalk" (prepared "mood") = AssertFail.
Proof.
  assert (H1 : nbArgs talk.1 = -1) by reflexivity.
  assert (H2 : 0 <= nbArgs (prepared "mood")) by (vm_compute; discriminate).
  split; [exact H1|]. split; [exact H2|].
  exact (misuse_fails_assertion talk.1 (prepared "mood") "onTalk" (ArgThing npc) 3 talk.2 H1 H2).
Defined.

(** *** Handles *)

(** The arguments of a callback as a script passes them on: the NPC and
    the player it was handed, and a text. *)
Definition message_call (text : LuaValue Z) : @lua_State Z unit :=
  {| state_id := 0;
     stack := [LLightUserData npc; LLightUserData player; text];
     store := store (mState talk.1) |}.

(** While the NPC is alive the message goes out under its public id. *)
Example message_while_alive :
  exists s',
    LuaMsg_NpcMessage (message_call (LString "hi")) w0
      = Done (0, s', sendTo player (npc_message GPMSG_NPC_MESSAGE 7 "hi") w0).
Proof. eexists. vm_compute. reflexivity. Qed.

(** C1 at the NPC of [w0], pushed as first argument of [onTalk], and an
    NPC with public id 99 created at its address after it is destroyed. *)
Lemma push_Thing_passes_raw_address_witness :
  preparing (prepared "onTalk") (LFunction (LuaFn 1)) [] /\
  Z.of_nat (List.length (@nil (LuaValue Z))) < INT_MAX /\
  stack (message_call (LString "hi"))
    = LLightUserData npc :: [LLightUserData player; LString "hi"] /\
  getType (mkThing OBJECT_NPC 99) = OBJECT_NPC /\
  (exists sc', push_Thing npc (prepared "onTalk") = Done sc' /\
               stack (mState sc') = LFunction (LuaFn 1) :: [] ++ [LLightUserData npc]) /\
  getNPC (destroy npc w0) (message_call (LString "hi")) 1 = Undefined /\
  getCharacter (destroy npc w0) (message_call (LString "hi")) 1 = Undefined /\
  LuaMsg_NpcMessage (message_call (LString "hi")) (destroy npc w0) = Undefined /\
  LuaMsg_NpcChoice (message_call (LString "hi")) (destroy npc w0) = Undefined /\
  getNPC (create npc (mkThing OBJECT_NPC 99) (destroy npc w0))
    (message_call (LString "hi")) 1 = Done (Some npc) /\
  publicID_of (create npc (mkThing OBJECT_NPC 99) (destroy npc w0)) npc = Done 99.
Proof.
  assert (H1 : preparing (prepared "onTalk") (LFunction (LuaFn 1)) [])
    by (split; reflexivity).
  assert (H2 : Z.of_nat (List.length (@nil (LuaValue Z))) < INT_MAX) by reflexivity.
  assert (H3 : stack (message_call (LString "hi"))
               = LLightUserData npc :: [LLightUserData player; LString "hi"])
    by reflexivity.
  assert (H4 : getType (mkThing OBJECT_NPC 99) = OBJECT_NPC) by reflexivity.
  split; [exact H1|]. split; [exact H2|]. split; [exact H3|]. split; [exact H4|].
  exact (push_Thing_passes_raw_address (prepared "onTalk") (LFunction (LuaFn 1)) [] npc w0
           (message_call (LString "hi")) _ (mkThing OBJECT_NPC 99) H1 H2 H3 H4).
Defined.

(** The script kept the address of the destroyed NPC: the message now
    goes out under the public id of the object that took its place. *)
Example message_after_reuse :
  exists s',
    LuaMsg_NpcMessage (message_call (LString "hi"))
      (create npc (mkThing OBJECT_NPC 99) (destroy npc w0))
    = Done (0, s', sendTo player (npc_message GPMSG_NPC_MESSAGE 99 "hi")
                     (create npc (mkThing OBJECT_NPC 99) (destroy npc w0))).
Proof. eexists. vm_compute. reflexivity. Qed.

(** *** Callback arguments *)

(** C7 at a number in the place of the NPC. *)
Lemma callback_rejects_incorrect_parameters_witness :
  pointers_live w0
    {| state_id := 0; stack := [LNumber 3; LLightUserData player; LString "hi"];
       store := empty_store |} = true /\
  accepted w0
    {| state_id := 0; stack := [LNumber 3; LLightUserData player; LString "hi"];
       store := empty_store |} = false /\
  (exists s',
      c_function LuaMsg_NpcChoice_fn
        {| state_id := 0; stack := [LNumber 3; LLightUserData player; LString "hi"];
           store := empty_store |} w0
        = Done (0, s', add_log (incorrect_parameters LuaMsg_NpcChoice_fn) w0)) /\
  call_function 0 (CFn LuaMsg_NpcChoice_fn)
    [LNumber 3; LLightUserData player; LString "hi"] empty_store w0
    = Done (Returned [] empty_store (add_log (incorrect_parameters LuaMsg_NpcChoice_fn) w0)) /\
  sent (add_log (incorrect_parameters LuaMsg_NpcChoice_fn) w0) = sent w0 /\
  things (add_log (incorrect_parameters LuaMsg_NpcChoice_fn) w0) = things w0 /\
  log (add_log (incorrect_parameters LuaMsg_NpcChoice_fn) w0)
    = log w0 ++ [incorrect_parameters LuaMsg_NpcChoice_fn].
Proof.
  assert (H1 : pointers_live w0
                 {| state_id := 0; stack := [LNumber 3; LLightUserData player; LString "hi"];
                    store := empty_store |} = true) by (vm_compute; reflexivity).
  assert (H2 : accepted w0
                 {| state_id := 0; stack := [LNumber 3; LLightUserData player; LString "hi"];
                    store := empty_store |} = false) by (vm_compute; reflexivity).
  split; [exact H1|]. split; [exact H2|].
  exact (callback_rejects_incorrect_parameters LuaMsg_NpcChoice_fn 0
           [LNumber 3; LLightUserData player; LString "hi"] empty_store w0 H1 H2).
Defined.

(** A number where the string is expected does not match the expected
    shape (entity handle, entity handle, string), and yet the callback
    sends the message, with the number written out. *)
Lemma callback_accepts_number_as_text :
  spec_shape_matches (message_call (LNumber 5)) = false /\
  exists s',
    LuaMsg_NpcMessage (message_call (LNumber 5)) w0
      = Done (0, s', sendTo player (npc_message GPMSG_NPC_MESSAGE 7 "5") w0) /\
    sent (sendTo player (npc_message GPMSG_NPC_MESSAGE 7 "5") w0)
      = [(player, npc_message GPMSG_NPC_MESSAGE 7 "5")] /\
    log (sendTo player (npc_message GPMSG_NPC_MESSAGE 7 "5") w0) = [].
Proof.
  split; [vm_compute; reflexivity|].
  eexists. split; [vm_compute; reflexivity|]. split; reflexivity.
Qed.

(** *** Loading and construction *)

(** C6 at the file that does not parse. *)
Lemma loadScript_failure_leaves_no_state_witness :
  load_failure "scripts/broken.lua"
    [LOG_ERROR [SText "Syntax error while loading script "; SText "scripts/broken.lua"]] /\
  loadScript "scripts/broken.lua" w0 =
    Done (None,
          {| things := things w0; sent := sent w0;
             log := log w0 ++ [LOG_ERROR [SText "Syntax error while loading script ";
                                          SText "scripts/broken.lua"]];
             open_states := open_states w0 |}).
Proof.
  assert (H1 : load_failure "scripts/broken.lua"
                 [LOG_ERROR [SText "Syntax error while loading script ";
                             SText "scripts/broken.lua"]])
    by exact (syntax_error "scripts/broken.lua" broken_lua "'(' expected near <eof>"
                eq_refl eq_refl).
  split; [exact H1|].
  exact (loadScript_failure_leaves_no_state "scripts/broken.lua" w0 _ H1).
Defined.

(** For a file that is missing loadScript() returns null and leaves the
    log as it found it. *)
Lemma loadScript_missing_file_logs_nothing :
  loadFile "scripts/none.lua" = None /\
  log w0 = [] /\
  exists w',
    loadScript "scripts/none.lua" w0 = Done (None, w') /\
    log w' = [].
Proof.
  split; [reflexivity|]. split; [reflexivity|].
  exists w0. split; reflexivity.
Qed.

(** The stores the two chunks leave. *)
Definition early_store : Store Z unit :=
  define "onTalk" (LFunction (LuaFn 7)) empty_store.




(** The two calls on the object early.lua leaves: [onGreet] has no value,
    [onTalk] was defined before the error. *)
Example calls_after_failed_initialization :
  globals early_store !! c_str "onGreet" = None /\
  (exists v',
     call_script "onGreet" [ArgThing npc] (at_rest 0 early_store) w0
       = Done (0, at_rest 0 early_store, v') /\
     log v' = [call_failure LUA_ERRRUN (LString "attempt to call a nil value")]) /\
  call_script "onTalk" [ArgThing npc; ArgThing player] (at_rest 0 early_store) w0
    = Done (1, at_rest 0 early_store, w0).
Proof.
  split; [vm_compute; reflexivity|]. split.
  - eexists. split; vm_compute; reflexivity.
  - vm_compute; reflexivity.
Qed.

(** A chunk that leaves a global tmw that is not a table: the
    registration raises an error outside any protected call. *)
Example LuaScript_new_name_conflict : LuaScript_new (chunk_state 9) w0 = Panic.
Proof. reflexivity. Qed.


(** *** Further runs on the concrete host *)

Lemma callback_sends_message_witness :
  stack (message_call (LNumber 5))
    = LLightUserData npc :: LLightUserData player :: LNumber 5 :: [] /\
  things w0 !! npc = Some (mkThing OBJECT_NPC 7) /\
  getType (mkThing OBJECT_NPC 7) = OBJECT_NPC /\
  things w0 !! player = Some (mkThing OBJECT_CHARACTER 9) /\
  getType (mkThing OBJECT_CHARACTER 9) = OBJECT_CHARACTER /\
  text_of (LNumber 5) = Some "5"%string /\
  let msg := {| msg_id := callback_message LuaMsg_NpcChoice_fn;
                msg_fields := [writeShort (getPublicID (mkThing OBJECT_NPC 7));
                               writeString (c_str "5") (Z.of_nat (String.length "5"))] |} in
  exists s' w',
    c_function LuaMsg_NpcChoice_fn (message_call (LNumber 5)) w0 = Done (0, s', w') /\
    store s' = store (message_call (LNumber 5)) /\
    sent w' = sent w0 ++ [(player, msg)] /\
    log w' = log w0 /\
    things w' = things w0 /\
    open_states w' = open_states w0.
Proof.
  assert (H1 : stack (message_call (LNumber 5))
               = LLightUserData npc :: LLightUserData player :: LNumber 5 :: [])
    by reflexivity.
  assert (H2 : things w0 !! npc = Some (mkThing OBJECT_NPC 7)) by (vm_compute; reflexivity).
  assert (H3 : getType (mkThing OBJECT_NPC 7) = OBJECT_NPC) by reflexivity.
  assert (H4 : things w0 !! player = Some (mkThing OBJECT_CHARACTER 9))
    by (vm_compute; reflexivity).
  assert (H5 : getType (mkThing OBJECT_CHARACTER 9) = OBJECT_CHARACTER) by reflexivity.
  assert (H6 : text_of (LNumber 5) = Some "5"%string) by (vm_compute; reflexivity).
  split; [exact H1|]. split; [exact H2|]. split; [exact H3|]. split; [exact H4|].
  split; [exact H5|]. split; [exact H6|].
  exact (callback_sends_message LuaMsg_NpcChoice_fn (message_call (LNumber 5)) w0
           npc player (LNumber 5) [] _ _ "5" H1 H2 H3 H4 H5 H6).
Defined.

Lemma callback_does_one_thing_witness :
  c_function LuaMsg_NpcMessage_fn (message_call (LBoolean true)) w0
    = Done (0, message_call (LBoolean true),
            add_log (incorrect_parameters LuaMsg_NpcMessage_fn) w0) /\
  0 = 0 /\
  things (add_log (incorrect_parameters LuaMsg_NpcMessage_fn) w0) = things w0 /\
  open_states (add_log (incorrect_parameters LuaMsg_NpcMessage_fn) w0) = open_states w0 /\
  store (message_call (LBoolean true)) = store (message_call (LBoolean true)) /\
  ((sent (add_log (incorrect_parameters LuaMsg_NpcMessage_fn) w0) = sent w0 /\
    log (add_log (incorrect_parameters LuaMsg_NpcMessage_fn) w0)
      = log w0 ++ [incorrect_parameters LuaMsg_NpcMessage_fn]) \/
   (log (add_log (incorrect_parameters LuaMsg_NpcMessage_fn) w0) = log w0 /\
    exists q msg,
      sent (add_log (incorrect_parameters LuaMsg_NpcMessage_fn) w0) = sent w0 ++ [(q, msg)] /\
      msg_id msg = callback_message LuaMsg_NpcMessage_fn)).
Proof.
  assert (H : c_function LuaMsg_NpcMessage_fn (message_call (LBoolean true)) w0
              = Done (0, message_call (LBoolean true),
                      add_log (incorrect_parameters LuaMsg_NpcMessage_fn) w0))
    by (vm_compute; reflexivity).
  split; [exact H|].
  exact (callback_does_one_thing LuaMsg_NpcMessage_fn (message_call (LBoolean true)) w0
           0 _ _ H).
Defined.

(** A host whose scripts return a numeric string and define their own
    table tmw. *)
Definition answer_lua : string :=
  "tmw = { version = 2 }
function answer() return '42', 7 end".

Definition answers_run (k : nat) (args : list (LuaValue Z))
    (st : Store Z unit) (w : World) : Outcome (CallResult Z unit) :=
  match k with
  | 0%nat => (* the chunk of answer_lua *)
      Done (Returned []
              {| globals := <["answer"%string := LFunction (LuaFn 1)]>
                              (<["tmw"%string := LTable 0]> (globals st));
                 loaded := loaded st;
                 tables := <[0%nat := {["version"%string := LNumber 2]}]> (tables st);
                 priv := priv st |} w)
  | 1%nat => Done (Returned [LString "42"; LNumber 7] st w)
  | _ => Done (Returned [] st w)
  end.

Definition answers_host : Host Z unit :=
  {| lua_run := answers_run;
     lua_load := fun _ => LoadOk 0;
     openlibs := fun st => st;
     priv_init := tt;
     loadFile := fun f => if String.eqb f "scripts/answer.lua" then Some answer_lua else None |}.

Definition answer_store : Store Z unit :=
  {| globals := <["answer"%string := LFunction (LuaFn 1)]>
                  (<["tmw"%string := LTable 0]> ∅);
     loaded := ∅;
     tables := <[0%nat := {["version"%string := LNumber 2]}]> ∅;
     priv := tt |}.

Lemma execute_reads_numeric_string_witness :
  idle (at_rest 0 answer_store) /\
  Z.of_nat (List.length (@nil Argument)) <= INT_MAX /\
  globals (store (mState (at_rest 0 answer_store))) !! c_str "answer"
    = Some (LFunction (LuaFn 1)) /\
  call_function (HOST := answers_host) 0 (LuaFn 1) (map value_of [])
    (store (mState (at_rest 0 answer_store))) w0
    = Done (Returned [LString "42"; LNumber 7] answer_store w0) /\
  num_of_str "42" = Some 42 /\
  call_script (HOST := answers_host) "answer" [] (at_rest 0 answer_store) w0
    = Done (to_int (num_to_integer 42), at_rest 0 answer_store, w0) /\
  INT_MIN <= to_int (num_to_integer 42) <= INT_MAX.
Proof.
  assert (H1 : idle (at_rest 0 answer_store)) by (split; reflexivity).
  assert (H2 : Z.of_nat (List.length (@nil Argument)) <= INT_MAX)
    by (vm_compute; discriminate).
  assert (H3 : globals (store (mState (at_rest 0 answer_store))) !! c_str "answer"
               = Some (LFunction (LuaFn 1))) by (vm_compute; reflexivity).
  assert (H4 : call_function (HOST := answers_host) 0 (LuaFn 1) (map value_of [])
                 (store (mState (at_rest 0 answer_store))) w0
               = Done (Returned [LString "42"; LNumber 7] answer_store w0))
    by reflexivity.
  assert (H5 : num_of_str "42" = Some 42) by (vm_compute; reflexivity).
  split; [exact H1|]. split; [exact H2|]. split; [exact H3|]. split; [exact H4|].
  split; [exact H5|].
  exact (execute_reads_numeric_string (HOST := answers_host) "answer" []
           (at_rest 0 answer_store) w0 (LuaFn 1) "42" 42 [LNumber 7] answer_store w0
           H1 H2 H3 H4 H5).
Defined.

Lemma prepare_push_builds_call_witness :
  idle talk.1 /\
  Z.of_nat (List.length [ArgInt 10; ArgThing npc]) <= INT_MAX /\
  exists sc1 sc2,
    prepare "second" talk.1 = Done sc1 /\
    push_all [ArgInt 10; ArgThing npc] sc1 = Done sc2 /\
    nbArgs sc2 = Z.of_nat (List.length [ArgInt 10; ArgThing npc]) /\
    stack (mState sc2)
      = default LNil (globals (store (mState talk.1)) !! c_str "second")
          :: map value_of [ArgInt 10; ArgThing npc] /\
    store (mState sc2) = store (mState talk.1).
Proof.
  assert (H1 : idle talk.1) by (split; reflexivity).
  assert (H2 : Z.of_nat (List.length [ArgInt 10; ArgThing npc]) <= INT_MAX)
    by (vm_compute; discriminate).
  split; [exact H1|]. split; [exact H2|].
  exact (prepare_push_builds_call "second" [ArgInt 10; ArgThing npc] talk.1 H1 H2).
Defined.

Lemma calls_return_only_in_order_witness :
  idle talk.1 /\
  run_calls [Prepare "second"; Push (ArgInt 10); Push (ArgInt 20); Execute; Prepare "mood"]
    talk.1 talk.2 = Done (prepared "mood", talk.2) /\
  in_order false
    [Prepare "second"; Push (ArgInt 10); Push (ArgInt 20); Execute; Prepare "mood"] = true.
Proof.
  assert (H1 : idle talk.1) by (split; reflexivity).
  assert (H2 : run_calls
                 [Prepare "second"; Push (ArgInt 10); Push (ArgInt 20); Execute; Prepare "mood"]
                 talk.1 talk.2 = Done (prepared "mood", talk.2))
    by (vm_compute; reflexivity).
  split; [exact H1|]. split; [exact H2|].
  exact (calls_return_only_in_order _ talk.1 talk.2 _ _ H1 H2).
Defined.

Lemma loadScript_returns_idle_script_witness :
  loadScript "scripts/talk.lua" w0 = Done (Some talk.1, talk.2) /\
  (exists buffer k,
      loadFile "scripts/talk.lua" = Some buffer /\ lua_load (c_str buffer) = LoadOk k) /\
  idle talk.1 /\
  state_id (mState talk.1) ∉ open_states w0.
Proof.
  assert (H : loadScript "scripts/talk.lua" w0 = Done (Some talk.1, talk.2))
    by (vm_compute; reflexivity).
  split; [exact H|].
  exact (loadScript_returns_idle_script "scripts/talk.lua" w0 talk.1 talk.2 H).
Defined.

Lemma LuaScript_new_panics_on_name_conflict_witness :
  stack (chunk_state 9) = [LFunction (LuaFn 9)] /\
  lua_run 9 [] (openlibs (store (chunk_state 9))) w0
    = Done (Returned [] (define "tmw" (LNumber 5) empty_store) w0) /\
  loaded (define "tmw" (LNumber 5) empty_store) !! "tmw"%string = None /\
  globals (define "tmw" (LNumber 5) empty_store) !! "tmw"%string = Some (LNumber 5) /\
  type_of (LNumber (5 : Z)) <> LUA_TNIL /\
  type_of (LNumber (5 : Z)) <> LUA_TTABLE /\
  LuaScript_new (chunk_state 9) w0 = Panic.
Proof.
  assert (H1 : stack (chunk_state 9) = [LFunction (LuaFn 9)]) by reflexivity.
  assert (H2 : lua_run 9 [] (openlibs (store (chunk_state 9))) w0
               = Done (Returned [] (define "tmw" (LNumber 5) empty_store) w0))
    by reflexivity.
  assert (H3 : loaded (define "tmw" (LNumber 5) empty_store) !! "tmw"%string = None)
    by (vm_compute; reflexivity).
  assert (H4 : globals (define "tmw" (LNumber 5) empty_store) !! "tmw"%string
               = Some (LNumber 5)) by (vm_compute; reflexivity).
  assert (H5 : type_of (LNumber (5 : Z)) <> LUA_TNIL) by discriminate.
  assert (H6 : type_of (LNumber (5 : Z)) <> LUA_TTABLE) by discriminate.
  split; [exact H1|]. split; [exact H2|]. split; [exact H3|]. split; [exact H4|].
  split; [exact H5|]. split; [exact H6|].
  exact (LuaScript_new_panics_on_name_conflict (chunk_state 9) w0 9 [] _ w0 (LNumber 5)
           H1 H2 H3 H4 H5 H6).
Defined.

Lemma LuaScript_new_extends_script_table_witness :
  stack (chunk_state 0) = [LFunction (LuaFn 0)] /\
  lua_run (Host := answers_host) 0 [] (openlibs (Host := answers_host) (store (chunk_state 0))) w0
    = Done (Returned [] answer_store w0) /\
  loaded answer_store !! "tmw"%string = None /\
  globals answer_store !! "tmw"%string = Some (LTable 0) /\
  exists st2,
    LuaScript_new (HOST := answers_host) (chunk_state 0) w0 = Done (at_rest 0 st2, w0) /\
    globals st2 = globals answer_store /\
    table_fields st2 0 !! "msg_npc_message"%string
      = Some (LFunction (CFn LuaMsg_NpcMessage_fn)) /\
    table_fields st2 0 !! "msg_npc_choice"%string
      = Some (LFunction (CFn LuaMsg_NpcChoice_fn)) /\
    (forall x, x <> "msg_npc_message"%string -> x <> "msg_npc_choice"%string ->
       table_fields st2 0 !! x = table_fields answer_store 0 !! x) /\
    (forall r', r' <> 0%nat -> tables st2 !! r' = tables answer_store !! r').
Proof.
  assert (H1 : stack (chunk_state 0) = [LFunction (LuaFn 0)]) by reflexivity.
  assert (H2 : lua_run (Host := answers_host) 0 []
                 (openlibs (Host := answers_host) (store (chunk_state 0))) w0
               = Done (Returned [] answer_store w0)) by reflexivity.
  assert (H3 : loaded answer_store !! "tmw"%string = None) by (vm_compute; reflexivity).
  assert (H4 : globals answer_store !! "tmw"%string = Some (LTable 0))
    by (vm_compute; reflexivity).
  split; [exact H1|]. split; [exact H2|]. split; [exact H3|]. split; [exact H4|].
  exact (LuaScript_new_extends_script_table (HOST := answers_host) (chunk_state 0) w0 0 []
           answer_store w0 0 H1 H2 H3 H4).
Defined.

(** The script's own field is still in the table next to the callbacks. *)
Example answer_table_after_construction :
  exists sc w,
    LuaScript_new (HOST := answers_host) (chunk_state 0) w0 = Done (sc, w) /\
    table_fields (store (mState sc)) 0 !! "version"%string = Some (LNumber 2) /\
    table_fields (store (mState sc)) 0 !! "msg_npc_choice"%string
      = Some (LFunction (CFn LuaMsg_NpcChoice_fn)).
Proof. do 2 eexists. split; [reflexivity|]. split; vm_compute; reflexivity. Qed.

(** A host whose standard libraries bind [tonumber], with a script that
    raises an error at its first statement: the construction fails and is
    logged, and [tonumber], which the script did not define, can be called
    on the object that is left. *)
Definition failing_lua : string := "error('no')".

Definition library_run (k : nat) (args : list (LuaValue Z))
    (st : Store Z unit) (w : World) : Outcome (CallResult Z unit) :=
  match k with
  | 0%nat => (* the chunk of failing_lua *)
      Done (Raised ErrRun (LString "no") st w)
  | 1%nat => (* tonumber, on a number *)
      Done (Returned [default LNil (args !! 0%nat)] st w)
  | _ => Done (Returned [] st w)
  end.

Definition library_host : Host Z unit :=
  {| lua_run := library_run;
     lua_load := fun _ => LoadOk 0;
     openlibs := fun st =>
       {| globals := <["tonumber"%string := LFunction (LuaFn 1)]> (globals st);
          loaded := loaded st; tables := tables st; priv := priv st |};
     priv_init := tt;
     loadFile := fun f =>
       if String.eqb f "scripts/failing.lua" then Some failing_lua else None |}.

Example library_function_after_failed_initialization :
  exists sc w sc' w',
    loadScript (HOST := library_host) "scripts/failing.lua" w0 = Done (Some sc, w) /\
    last (log w) = Some (init_failure (LString "no")) /\
    call_script (HOST := library_host) "tonumber" [ArgInt 7] sc w = Done (7, sc', w') /\
    log w' = log w.
Proof.
  do 4 eexists. split; [vm_compute; reflexivity|].
  split; [reflexivity|]. split; [vm_compute; reflexivity|]. reflexivity.
Qed.


End LuaScripting.
